(** * The shared source directory of the pyre client ([client/filesystem.py])

    A shallow embedding of [SharedSourceDirectory] (prepare, _clear, _merge,
    _merge_source_directory), of the helpers [_find_python_paths], [is_empty],
    [remove_if_exists] and [acquire_lock], and of the two file listers.

    The code talks to the operating system all the time: every call it makes
    (os.makedirs, open, fcntl.lockf, os.symlink, subprocess.check_output, ...)
    is a node of a finite program tree whose branches are the possible answers
    of the system, Python exceptions are leaves of their own, and try/except
    is a function on trees.  A property "for every filesystem condition" is a
    property of every branch. *)

From Stdlib Require Import ZArith Ascii String List Bool Lia.
From stdpp Require Import base tactics option list strings pretty.

Set Default Proof Using "Type".
Open Scope string_scope.
Open Scope list_scope.

(** ** Python strings and POSIX paths

    Strings are ASCII text.  The functions below follow [str] and
    [posixpath] of CPython. *)

Module Py.

(** [s.startswith(p)] *)
Definition startswith (s p : string) : bool := String.prefix p s.

(** [s.endswith(p)]: some tail of [s] is [p]. *)
Fixpoint endswith (s p : string) : bool :=
  String.eqb s p ||
  match s with
  | EmptyString => false
  | String _ s' => endswith s' p
  end.

(** [c.isspace()] on the ASCII range. *)
Definition isspace (c : ascii) : bool :=
  let n := nat_of_ascii c in
  (Nat.leb 9 n && Nat.leb n 13) || (Nat.leb 28 n && Nat.leb n 32).

Definition is_empty_string (s : string) : bool :=
  match s with EmptyString => true | _ => false end.

Fixpoint lstrip (s : string) : string :=
  match s with
  | EmptyString => EmptyString
  | String c s' => if isspace c then lstrip s' else s
  end.

Fixpoint rstrip (s : string) : string :=
  match s with
  | EmptyString => EmptyString
  | String c s' =>
      let r := rstrip s' in
      if is_empty_string r && isspace c then EmptyString else String c r
  end.

(** [s.strip()] *)
Definition strip (s : string) : string := lstrip (rstrip s).

(** [s.split(sep)] for a separator of one character. *)
Fixpoint split_on (sep : ascii) (s : string) : list string :=
  match s with
  | EmptyString => [EmptyString]
  | String c s' =>
      if Ascii.eqb c sep then EmptyString :: split_on sep s'
      else match split_on sep s' with
           | [] => [String c EmptyString]
           | w :: ws => String c w :: ws
           end
  end.

Definition newline : ascii := ascii_of_nat 10.
Definition slash : ascii := "/"%char.

(** [s.split()]: the maximal runs of characters that are not white space. *)
Fixpoint split_ws_go (cur : string) (s : string) : list string :=
  match s with
  | EmptyString => if is_empty_string cur then [] else [cur]
  | String c s' =>
      if isspace c
      then (if is_empty_string cur then split_ws_go EmptyString s'
            else cur :: split_ws_go EmptyString s')
      else split_ws_go (cur +:+ String c EmptyString) s'
  end.

Definition split_ws (s : string) : list string := split_ws_go EmptyString s.

(** [sep.join(l)] *)
Fixpoint join_with (sep : string) (l : list string) : string :=
  match l with
  | [] => EmptyString
  | [x] => x
  | x :: l' => x +:+ sep +:+ join_with sep l'
  end.

(** [posixpath.join(a, b)] *)
Definition path_join (a b : string) : string :=
  if startswith b "/" then b
  else if is_empty_string a || endswith a "/" then a +:+ b
  else a +:+ "/" +:+ b.

(** [posixpath.join(a, *p)] *)
Definition path_join_all (a : string) (p : list string) : string :=
  fold_left path_join p a.

(** [p[:p.rfind('/') + 1]] *)
Fixpoint upto_last_slash (p : string) : string :=
  match p with
  | EmptyString => EmptyString
  | String c p' =>
      let h := upto_last_slash p' in
      if negb (is_empty_string h) then String c h
      else if Ascii.eqb c slash then String c EmptyString
      else EmptyString
  end.

Fixpoint all_slashes (s : string) : bool :=
  match s with
  | EmptyString => true
  | String c s' => Ascii.eqb c slash && all_slashes s'
  end.

(** [s.rstrip('/')] *)
Fixpoint rstrip_slashes (s : string) : string :=
  match s with
  | EmptyString => EmptyString
  | String c s' =>
      let r := rstrip_slashes s' in
      if is_empty_string r && Ascii.eqb c slash then EmptyString else String c r
  end.

(** [posixpath.dirname(p)] *)
Definition dirname (p : string) : string :=
  let head := upto_last_slash p in
  if negb (is_empty_string head) && negb (all_slashes head)
  then rstrip_slashes head else head.

Definition isabs (p : string) : bool := startswith p "/".

(** The loop of [posixpath.normpath] over the components, [acc] being
    [new_comps] with its last element first. *)
Fixpoint normpath_go (initial_slashes : bool) (acc : list string)
    (comps : list string) : list string :=
  match comps with
  | [] => rev acc
  | comp :: rest =>
      if String.eqb comp "" || String.eqb comp "." then
        normpath_go initial_slashes acc rest
      else if negb (String.eqb comp "..") then
        normpath_go initial_slashes (comp :: acc) rest
      else match acc with
           | [] =>
               if initial_slashes then normpath_go initial_slashes acc rest
               else normpath_go initial_slashes (comp :: acc) rest
           | last :: acc' =>
               if String.eqb last ".."
               then normpath_go initial_slashes (comp :: acc) rest
               else normpath_go initial_slashes acc' rest
           end
  end.

(** [posixpath.normpath(path)] *)
Definition normpath (path : string) : string :=
  if is_empty_string path then "."
  else
    let initial := startswith path "/" in
    let two := initial && startswith path "//" && negb (startswith path "///") in
    let comps := normpath_go initial [] (split_on slash path) in
    let body := join_with "/" comps in
    let res := if two then "//" +:+ body else if initial then "/" +:+ body else body in
    if is_empty_string res then "." else res.

(** [posixpath.abspath(path)], [cwd] being what [os.getcwd()] answers. *)
Definition abspath (cwd path : string) : string :=
  normpath (if isabs path then path else path_join cwd path).

(** [[x for x in abspath(p).split('/') if x]] *)
Definition abs_components (cwd p : string) : list string :=
  List.filter (fun x => negb (is_empty_string x)) (split_on slash (abspath cwd p)).

(** [len(commonprefix([l1, l2]))] on lists of components. *)
Fixpoint common_prefix_length (l1 l2 : list string) : nat :=
  match l1, l2 with
  | x :: l1', y :: l2' =>
      if String.eqb x y then S (common_prefix_length l1' l2') else 0
  | _, _ => 0
  end.

(** [posixpath.relpath(path, start)] for a [path] that is not empty (on the
    empty path [relpath] raises, see [os_path_relpath] below). *)
Definition relpath_nonempty (cwd path start : string) : string :=
  let start_list := abs_components cwd start in
  let path_list := abs_components cwd path in
  let i := common_prefix_length start_list path_list in
  let rel_list := repeat ".." (length start_list - i) ++ skipn i path_list in
  match rel_list with
  | [] => "."
  | x :: rest => path_join_all x rest
  end.

End Py.


(** ** Exceptions and the answers of the operating system *)

(** An [OSError] as the interpreter raises it for a failed system call.
    CPython picks the subclass from [errno]: [FileNotFoundError] is the
    [OSError] whose [errno] is [ENOENT], [FileExistsError] the one whose
    [errno] is [EEXIST]. *)
Record oserror := OSErr { errno : Z; strerror : string }.

Definition ENOENT : Z := 2.
Definition EACCES : Z := 13.
Definition EEXIST : Z := 17.

Inductive exn :=
| OSError (e : oserror)
| JSONDecodeError
| UnicodeDecodeError
| TypeError (msg : string)
| ValueError (msg : string)
| CalledProcessError (returncode : Z)
| EnvironmentException (msg : string)
| RuntimeError (msg : string).

(** [except OSError] *)
Definition is_OSError (e : exn) : bool :=
  match e with OSError _ => true | _ => false end.

(** [except FileNotFoundError] *)
Definition is_FileNotFoundError (e : exn) : bool :=
  match e with OSError o => Z.eqb (errno o) ENOENT | _ => false end.

(** [except (OSError, json.JSONDecodeError)] *)
Definition is_OSError_or_JSONDecodeError (e : exn) : bool :=
  match e with OSError _ | JSONDecodeError => true | _ => false end.

(** [except subprocess.CalledProcessError] *)
Definition is_CalledProcessError (e : exn) : bool :=
  match e with CalledProcessError _ => true | _ => false end.

(** [except (subprocess.CalledProcessError, FileNotFoundError)] *)
Definition is_CalledProcessError_or_FileNotFoundError (e : exn) : bool :=
  is_CalledProcessError e || is_FileNotFoundError e.

(** [except Exception] *)
Definition is_Exception (e : exn) : bool := true.

Definition is_EnvironmentException (e : exn) : bool :=
  match e with EnvironmentException _ => true | _ => false end.

(** The answer of a system call that can fail. *)
Inductive sys (A : Type) : Type :=
| Done (a : A)
| Fails (e : oserror).
Arguments Done {A} a.
Arguments Fails {A} e.

(** A decoded JSON document. *)
#[warnings="-register-all"]
Inductive json :=
| JNull
| JBool (b : bool)
| JNum (n : Z)
| JStr (s : string)
| JArr (items : list json)
| JObj (members : list (string * json)).

(** What [json.load(file)] does on an open file: it reads the file, decodes
    the bytes as text and parses the text. *)
Inductive load_result :=
| Loaded (v : json)
| LoadOSError (e : oserror)
| LoadUnicodeDecodeError
| LoadJSONDecodeError.

(** What [subprocess.check_output(argv)] does: the output of a process that
    exited with status 0, which is the UTF-8 encoding of the text [out] or is
    not UTF-8 at all, [CalledProcessError] with the status otherwise, or the
    [OSError] of a process that could not be started ([FileNotFoundError]
    when the executable is missing). *)
Inductive proc_result :=
| ProcOutput (out : string)
| ProcUndecodable
| ProcExit (returncode : Z)
| ProcOSError (e : oserror).

(** The [bytes] that [check_output] returns. *)
Inductive bytes :=
| Utf8 (text : string)
| NotUtf8.

Inductive mode := ModeR | ModeW | ModeWPlus.

Inductive level := INFO | ERROR | PERFORMANCE.

(** [fcntl.LOCK_EX], [fcntl.LOCK_NB], [fcntl.LOCK_UN] *)
Definition LOCK_EX : Z := 2.
Definition LOCK_NB : Z := 4.
Definition LOCK_UN : Z := 8.

(** The calls [filesystem.py] makes to the world outside the interpreter. *)
Inductive syscall :=
| Makedirs (p : string)                    (* os.makedirs(p) *)
| Open (p : string) (m : mode)             (* open(p, m) *)
| Close (fd : Z)                           (* leaving [with open(...)] *)
| JsonLoad (fd : Z)                        (* json.load(file) *)
| JsonDump (l : list string) (fd : Z)      (* json.dump(l, file) *)
| Lockf (fd : Z) (cmd : Z)                 (* fcntl.lockf(fd, cmd) *)
| Listdir (p : string)                     (* os.listdir(p) *)
| Remove (p : string)                      (* os.remove(p) *)
| Rmtree (p : string)                      (* shutil.rmtree(p) *)
| Symlink (src dst : string)               (* os.symlink(src, dst) *)
| Unlink (p : string)                      (* os.unlink(p) *)
| Realpath (p : string)                    (* os.path.realpath(p) *)
| Isfile (p : string)                      (* os.path.isfile(p) *)
| StatSize (p : string)                    (* os.stat(p).st_size *)
| CheckOutput (argv : list string) (stderr_devnull : bool)
| Log (lvl : level) (msg : string).        (* LOG.info, LOG.error, LOG.log *)

Definition answer (c : syscall) : Type :=
  match c with
  | Makedirs _ | Remove _ | Rmtree _ | Symlink _ _ | Unlink _
  | Lockf _ _ | JsonDump _ _ => sys unit
  | Open _ _ => sys Z
  | Close _ | Log _ _ => unit
  | JsonLoad _ => load_result
  | Listdir _ => sys (list string)
  | Isfile _ => bool
  | StatSize _ => sys Z
  | Realpath _ => sys string
  | CheckOutput _ _ => proc_result
  end.

(** ** Programs

    A program returns, raises, or makes a call and goes on with its answer. *)
Inductive prog (A : Type) : Type :=
| Ret (a : A)
| Throw (e : exn)
| Vis (c : syscall) (k : answer c -> prog A).
Arguments Ret {A} a.
Arguments Throw {A} e.
Arguments Vis {A} c k.

Fixpoint bind {A B : Type} (p : prog A) (f : A -> prog B) : prog B :=
  match p with
  | Ret a => f a
  | Throw e => Throw e
  | Vis c k => Vis c (fun x => bind (k x) f)
  end.

#[global] Instance prog_ret : MRet prog := fun A a => Ret a.
#[global] Instance prog_bind : MBind prog := fun A B f p => bind p f.

(** [try: p  except <matches> as e: handler e] *)
Fixpoint try_except {A : Type} (p : prog A) (matches : exn -> bool)
    (handler : exn -> prog A) : prog A :=
  match p with
  | Ret a => Ret a
  | Throw e => if matches e then handler e else Throw e
  | Vis c k => Vis c (fun x => try_except (k x) matches handler)
  end.

(** [p] followed by [q] however [p] ends (the exit of a [with] block). *)
Fixpoint finally {A : Type} (p : prog A) (q : prog unit) : prog A :=
  match p with
  | Ret a => bind q (fun _ => Ret a)
  | Throw e => bind q (fun _ => Throw e)
  | Vis c k => Vis c (fun x => finally (k x) q)
  end.

(** [for x in l: body x] *)
Fixpoint for_each {A : Type} (l : list A) (body : A -> prog unit) : prog unit :=
  match l with
  | [] => Ret tt
  | x :: l' => bind (body x) (fun _ => for_each l' body)
  end.

(** [for x in l: acc = body acc x], for a loop that updates an object. *)
Fixpoint for_fold {A S : Type} (l : list A) (body : S -> A -> prog S) (acc : S)
    : prog S :=
  match l with
  | [] => Ret acc
  | x :: l' => bind (body acc x) (fun acc' => for_fold l' body acc')
  end.

(** One call, its answer returned as it is. *)
Definition call (c : syscall) : prog (answer c) := Vis c Ret.

(** One call that raises [OSError] when it fails. *)
Definition call_sys {A : Type} (c : syscall) (cast : answer c -> sys A) : prog A :=
  Vis c (fun x => match cast x with
                  | Done a => Ret a
                  | Fails e => Throw (OSError e)
                  end).

Definition os_makedirs (p : string) : prog unit := call_sys (Makedirs p) id.
Definition os_remove (p : string) : prog unit := call_sys (Remove p) id.
Definition shutil_rmtree (p : string) : prog unit := call_sys (Rmtree p) id.
Definition os_symlink (src dst : string) : prog unit := call_sys (Symlink src dst) id.
Definition os_unlink (p : string) : prog unit := call_sys (Unlink p) id.
Definition os_listdir (p : string) : prog (list string) := call_sys (Listdir p) id.
Definition os_stat_size (p : string) : prog Z := call_sys (StatSize p) id.
Definition fcntl_lockf (fd cmd : Z) : prog unit := call_sys (Lockf fd cmd) id.
Definition open_ (p : string) (m : mode) : prog Z := call_sys (Open p m) id.
Definition json_dump (l : list string) (fd : Z) : prog unit := call_sys (JsonDump l fd) id.
Definition close (fd : Z) : prog unit := call (Close fd).
Definition os_path_realpath (p : string) : prog string := call_sys (Realpath p) id.
Definition os_path_isfile (p : string) : prog bool := call (Isfile p).
Definition LOG (lvl : level) (msg : string) : prog unit := call (Log lvl msg).

Definition json_load (fd : Z) : prog json :=
  Vis (JsonLoad fd) (fun r : load_result =>
    match r with
    | Loaded v => Ret v
    | LoadOSError e => Throw (OSError e)
    | LoadUnicodeDecodeError => Throw UnicodeDecodeError
    | LoadJSONDecodeError => Throw JSONDecodeError
    end).

(** [subprocess.check_output(argv, stderr=...)] *)
Definition check_output (argv : list string) (stderr_devnull : bool) : prog bytes :=
  Vis (CheckOutput argv stderr_devnull) (fun r : proc_result =>
    match r with
    | ProcOutput out => Ret (Utf8 out)
    | ProcUndecodable => Ret NotUtf8
    | ProcExit code => Throw (CalledProcessError code)
    | ProcOSError e => Throw (OSError e)
    end).

(** [output.decode("utf-8")] *)
Definition decode (output : bytes) : prog string :=
  match output with
  | Utf8 text => Ret text
  | NotUtf8 => Throw UnicodeDecodeError
  end.

(** [with open(p, m) as file: body file] *)
Definition with_open {A : Type} (p : string) (m : mode) (body : Z -> prog A) : prog A :=
  bind (open_ p m) (fun fd => finally (body fd) (close fd)).

(** ** Runs

    An event is a call with the answer it got; a run of a program is the list
    of its events and the way it ended. *)
Inductive event := Ev (c : syscall) (r : answer c).

Inductive outcome (A : Type) : Type :=
| Returns (a : A)
| Raises (e : exn).
Arguments Returns {A} a.
Arguments Raises {A} e.

(** [runs p tr o]: the system can answer the calls of [p] so that [p] makes
    the events [tr] and ends as [o]. *)
Fixpoint runs {A : Type} (p : prog A) (tr : list event) (o : outcome A) : Prop :=
  match p with
  | Ret a => tr = [] /\ o = Returns a
  | Throw e => tr = [] /\ o = Raises e
  | Vis c k => exists (x : answer c) (tr' : list event),
      tr = Ev c x :: tr' /\ runs (k x) tr' o
  end.

(** A system: a state [W] and, for every call, its answer and the next
    state. *)
Definition handler (W : Type) : Type := forall c : syscall, W -> answer c * W.

Record execution (W A : Type) : Type := Execution {
  outcome_of : outcome A;
  trace_of : list event;
  world_of : W
}.
Arguments Execution {W A} _ _ _.
Arguments outcome_of {W A} _.
Arguments trace_of {W A} _.
Arguments world_of {W A} _.

(** The run of [p] on the system [h] started in the state [w]. *)
Fixpoint run {W A : Type} (h : handler W) (p : prog A) (w : W) : execution W A :=
  match p with
  | Ret a => Execution (Returns a) [] w
  | Throw e => Execution (Raises e) [] w
  | Vis c k =>
      let (x, w') := h c w in
      let r := run h (k x) w' in
      Execution (outcome_of r) (Ev c x :: trace_of r) (world_of r)
  end.

(** ** Python values the code handles *)

(** A [dict] from relative paths to paths, in insertion order (Python keeps
    it, and [_merge] creates the links in that order). *)
Module Dict.

Definition t : Type := list (string * string).

Fixpoint get (k : string) (d : t) : option string :=
  match d with
  | [] => None
  | (k', v) :: d' => if String.eqb k k' then Some v else get k d'
  end.

(** [k in d] *)
Definition mem (k : string) (d : t) : bool :=
  match get k d with Some _ => true | None => false end.

(** [d[k] = v]: the value of a present key is replaced where it stands, a new
    key is appended. *)
Fixpoint set (k v : string) (d : t) : t :=
  match d with
  | [] => [(k, v)]
  | (k', v') :: d' =>
      if String.eqb k k' then (k', v) :: d' else (k', v') :: set k v d'
  end.

Definition keys (d : t) : list string := map fst d.

End Dict.

(** A value that can be a member of a [set]: lists and dicts are not. *)
Definition hashable (v : json) : bool :=
  match v with JArr _ | JObj _ => false | _ => true end.

(** [set(v)] for a decoded document [v]: the members of an array when all of
    them can be hashed, the characters of a string, the keys of an object;
    [TypeError] otherwise.  The set is the list of its members: only
    membership is asked of it. *)
Definition py_set (v : json) : prog (list json) :=
  match v with
  | JArr items =>
      if forallb hashable items then Ret items
      else Throw (TypeError "unhashable type")
  | JStr s => Ret (map (fun c => JStr (String c EmptyString)) (list_ascii_of_string s))
  | JObj members => Ret (map (fun kv => JStr (fst kv)) members)
  | JNull | JBool _ | JNum _ => Throw (TypeError "object is not iterable")
  end.

(** [d in tracked] for a string [d]: a string equals no value of another
    type. *)
Definition set_contains (tracked : list json) (d : string) : bool :=
  existsb (fun v => match v with JStr s => String.eqb s d | _ => false end) tracked.

(** [dirs.issubset(tracked)] *)
Definition issubset (dirs : list string) (tracked : list json) : bool :=
  forallb (set_contains tracked) dirs.

(** ** [client/filesystem.py] *)

(** [SharedSourceDirectory]: [_source_directories] is a Python set, here the
    list of its members without repetition in the order in which the set
    object iterates.  That order is the interpreter's choice: what is proved
    below of a set holds for each of its orders. *)
Record SharedSourceDirectory := {
  _source_directories : list string;
  _isolate : bool
}.

(** [SharedSourceDirectory.__init__] *)
Definition __init__ (source_directories : list string) (isolate : bool)
    : SharedSourceDirectory :=
  {| _source_directories := remove_dups source_directories;
     _isolate := isolate |}.

Definition EnvironmentException_no_source_directory : exn :=
  EnvironmentException
    ("pyre was unable to locate a source directory. "
     +:+ "Ensure that your project is built and re-run pyre.").

(** [is_empty(path)] *)
Definition is_empty (path : string) : prog bool :=
  try_except
    (bind (os_stat_size path) (fun size => Ret (Z.eqb size 0)))
    is_FileNotFoundError
    (fun _ => Ret false).

(** [remove_if_exists(path)] *)
Definition remove_if_exists (path : string) : prog unit :=
  bind (try_except (os_remove path) is_OSError (fun _ => Ret tt)) (fun _ =>
  try_except (shutil_rmtree path) is_OSError (fun _ => Ret tt)).

(** The exit of [with acquire_lock(...)] while the lock is held, [p] being
    what is left of the body of the [with].  When the body returns, the
    generator goes on after its first [yield]: it unlocks, the
    [with open] closes the lock file and the generator ends.  When the body
    raises, the exception is thrown into the generator at the [yield]: the
    [with open] closes the lock file and the [try] sees the exception.  In
    both cases a [FileNotFoundError] reaches [except FileNotFoundError], whose
    [yield] makes the generator yield a second time, which
    [contextlib.contextmanager] answers with a [RuntimeError]. *)
Fixpoint while_locked {A : Type} (lockfile : Z) (p : prog A) : prog A :=
  match p with
  | Ret a =>
      Vis (Lockf lockfile LOCK_UN) (fun l : sys unit =>
        bind (close lockfile) (fun _ =>
        match l with
        | Done _ => Ret a
        | Fails e =>
            if is_FileNotFoundError (OSError e)
            then Throw (RuntimeError "generator didn't stop")
            else Throw (OSError e)
        end))
  | Throw x =>
      bind (close lockfile) (fun _ =>
      if is_FileNotFoundError x
      then Throw (RuntimeError "generator didn't stop after throw()")
      else Throw x)
  | Vis c k => Vis c (fun x => while_locked lockfile (k x))
  end.

(** [with acquire_lock(path, blocking) as fd: body fd].

    The generator opens the lock file and locks it, yields the descriptor and
    unlocks.  A [FileNotFoundError] before the first [yield] (the directory
    of the lock file is missing) is caught and the generator yields [None]:
    the body runs without the lock, and whatever it does is what the [with]
    does.  Any other [OSError] of [open] or [lockf] leaves the [with]
    statement before the body runs. *)
Definition acquire_lock {A : Type} (path : string) (blocking : bool)
    (body : option Z -> prog A) : prog A :=
  Vis (Open path ModeWPlus) (fun r : sys Z =>
    match r with
    | Fails e =>
        if is_FileNotFoundError (OSError e) then body None
        else Throw (OSError e)
    | Done lockfile =>
        let lock_command :=
          if negb blocking then Z.lor LOCK_EX LOCK_NB else LOCK_EX in
        Vis (Lockf lockfile lock_command) (fun l : sys unit =>
          match l with
          | Fails e =>
              bind (close lockfile) (fun _ =>
              if is_FileNotFoundError (OSError e) then body None
              else Throw (OSError e))
          | Done _ => while_locked lockfile (body (Some lockfile))
          end)
    end).

(** [Filesystem.list] *)
Definition Filesystem_list (root pattern : string) : prog (list string) :=
  bind (check_output ["find"; root; "-name"; "*" +:+ pattern] false) (fun output =>
  bind (decode output) (fun out =>
  Ret (Py.split_ws out))).

(** [MercurialBackedFilesystem.list] *)
Definition MercurialBackedFilesystem_list (root pattern : string)
    : prog (list string) :=
  try_except
    (bind (check_output ["hg"; "files"; "--include"; "**" +:+ pattern] true)
       (fun output =>
     bind (decode output) (fun out => Ret (Py.split_ws out))))
    is_CalledProcessError_or_FileNotFoundError
    (fun exception =>
       match exception with
       | CalledProcessError returncode =>
           if Z.eqb returncode 1 then
             (* hg files exits with 1 when no matches were found. *)
             Ret []
           else
             Throw (EnvironmentException
                      ("Unexpected return code " +:+ pretty returncode
                       +:+ " from call to `hg files`."))
       | _ => Throw (EnvironmentException "hg executable not found.")
       end).

Inductive Filesystem := GenericFilesystem | MercurialBackedFilesystem.

(** The body of [get_filesystem] (what [functools.lru_cache] runs at the
    first call). *)
Definition get_filesystem : prog Filesystem :=
  try_except
    (bind (check_output ["hg"; "status"] true) (fun _ =>
     Ret MercurialBackedFilesystem))
    is_CalledProcessError_or_FileNotFoundError
    (fun _ => Ret GenericFilesystem).

Section Process.

(** What [os.getpid()] and [os.getcwd()] answer in the process that runs the
    code. *)
Variable pid : Z.
Variable cwd : string.

(** [os.path.relpath(path, start)]: it refuses the empty path. *)
Definition os_path_relpath (path start : string) : prog string :=
  if Py.is_empty_string path then Throw (ValueError "no path specified")
  else Ret (Py.relpath_nonempty cwd path start).

(** [_find_python_paths(root)] *)
Definition _find_python_paths (root : string) : prog (list string) :=
  let root := Py.abspath cwd root in
  try_except
    (bind (check_output
             ["find"; root;
              "("; "-name"; "*.py"; "-or"; "-name"; "*.pyi"; ")";
              "("; "-type"; "f"; "-or"; "-type"; "l"; ")";
              "-print"] true) (fun output =>
     bind (decode output) (fun output =>
     Ret (Py.split_on Py.newline (Py.strip output)))))
    is_CalledProcessError
    (fun _ => Throw EnvironmentException_no_source_directory).

(** One turn of the loop of [_merge_source_directory]. *)
Definition merge_path (source_directory : string) (all_paths : Dict.t)
    (path : string) : prog Dict.t :=
  bind (os_path_relpath path source_directory) (fun relative =>
  if Py.is_empty_string path then Ret all_paths
  else if Dict.mem relative all_paths then Ret all_paths
  else
    try_except
      (bind (os_path_realpath path) (fun absolute =>
       bind (os_path_isfile absolute) (fun isfile =>
       if negb isfile then Ret all_paths
       else
         bind (if Py.endswith relative "__init__.py" then is_empty absolute
               else Ret false) (fun empty_init =>
         if empty_init then Ret all_paths
         else Ret (Dict.set relative absolute all_paths)))))
      is_FileNotFoundError
      (fun _ => Ret all_paths)).

(** [SharedSourceDirectory._merge_source_directory]; the dict it updates is
    returned. *)
Definition _merge_source_directory (source_directory : string)
    (all_paths : Dict.t) : prog Dict.t :=
  bind (_find_python_paths source_directory) (fun paths =>
  for_fold paths (merge_path source_directory) all_paths).

(** [SharedSourceDirectory.get_root] *)
Definition get_root (self : SharedSourceDirectory) : string :=
  let suffix := if _isolate self then "_" +:+ pretty pid else "" in
  ".pyre/shared_source_directory" +:+ suffix.

(** The first loop of [_merge] on the directories [dirs], for a dict that
    holds [all_paths] when the loop starts. *)
Definition merge_from (dirs : list string) (all_paths : Dict.t) : prog Dict.t :=
  for_fold dirs
    (fun all_paths source_directory =>
       _merge_source_directory source_directory all_paths)
    all_paths.

(** The first loop of [_merge]: the mapping of all source directories,
    [all_paths] being empty at first. *)
Definition merge_all (self : SharedSourceDirectory) : prog Dict.t :=
  merge_from (_source_directories self) [].

(** One turn of the second loop of [_merge]: the link of one entry. *)
Definition link_path (root : string) (entry : string * string) : prog unit :=
  let (relative, original) := entry in
  let merged := Py.path_join root relative in
  let directory := Py.dirname merged in
  bind (try_except (os_makedirs directory) is_OSError (fun _ => Ret tt)) (fun _ =>
  try_except (os_symlink original merged) is_OSError
    (fun error =>
       match error with
       | OSError e =>
           if Z.eqb (errno e) EEXIST then
             bind (os_unlink merged) (fun _ => os_symlink original merged)
           else LOG ERROR (strerror e)
       | _ => Throw error
       end)).

(** [SharedSourceDirectory._merge] *)
Definition _merge (self : SharedSourceDirectory) : prog unit :=
  let root := get_root self in
  bind (merge_all self) (fun all_paths =>
  for_each all_paths (link_path root)).

(** [SharedSourceDirectory._clear] *)
Definition _clear (self : SharedSourceDirectory) : prog unit :=
  let root := get_root self in
  bind (os_listdir root) (fun names =>
  for_each names (fun path =>
    if Py.startswith path ".pyre" then Ret tt
    else remove_if_exists (Py.path_join root path))).

Definition manifest_path (self : SharedSourceDirectory) : string :=
  Py.path_join (get_root self) ".pyre.source_directories".

Definition lock_path (self : SharedSourceDirectory) : string :=
  Py.path_join (get_root self) ".pyre.lock".

(** The [try] of [prepare]: it answers [true] when its [return] is reached
    (the requested directories are all tracked), [false] when the [try] is
    left another way without an exception. *)
Definition check_manifest (self : SharedSourceDirectory) : prog bool :=
  try_except
    (bind (with_open (manifest_path self) ModeR (fun file =>
             bind (json_load file) py_set)) (fun tracked =>
     if issubset (_source_directories self) tracked then
       bind (LOG INFO "Shared source directory is up to date") (fun _ => Ret true)
     else Ret false))
    is_OSError_or_JSONDecodeError
    (fun _ => Ret false).

(** What [prepare] does after the [try]: clear, merge, write the manifest. *)
Definition rebuild (self : SharedSourceDirectory) : prog unit :=
  bind (LOG INFO "Shared source directory is stale, updating...") (fun _ =>
  bind (_clear self) (fun _ =>
  bind (_merge self) (fun _ =>
  bind (with_open (manifest_path self) ModeW (fun file =>
          json_dump (_source_directories self) file)) (fun _ =>
  LOG PERFORMANCE "Merged source directories in %fs")))).

(** The body of [with acquire_lock(lock, blocking=True)] in [prepare]. *)
Definition critical_section (self : SharedSourceDirectory) : prog unit :=
  bind (check_manifest self) (fun up_to_date =>
  if up_to_date then Ret tt else rebuild self).

(** [SharedSourceDirectory.prepare] *)
Definition prepare (self : SharedSourceDirectory) : prog unit :=
  let root := get_root self in
  bind (LOG INFO ("Constructing shared directory `" +:+ root +:+ "`")) (fun _ =>
  bind (try_except (os_makedirs root) is_OSError (fun _ => Ret tt)) (fun _ =>
  acquire_lock (lock_path self) true (fun _ => critical_section self))).

(** [SharedSourceDirectory.cleanup] *)
Definition cleanup (self : SharedSourceDirectory) : prog unit :=
  try_except
    (if _isolate self then shutil_rmtree (get_root self) else Ret tt)
    is_Exception
    (fun _ => Ret tt).

End Process.

(** ** Systems to run the code on

    A system that answers every call the same way whatever happened before,
    except that it remembers which links it has made: a second [symlink] at
    the same place fails with [EEXIST] until the link is removed. *)

Definition answers : Type := forall c : syscall, answer c.

(** Every call succeeds: no directory has entries, no process prints
    anything, no file is a regular file, and an open file does not hold a
    JSON document. *)
Definition quiet : answers := fun c =>
  match c return answer c with
  | Makedirs _ | Remove _ | Rmtree _ | Symlink _ _ | Unlink _
  | Lockf _ _ | JsonDump _ _ => Done tt
  | Open _ _ => Done 3%Z
  | Close _ | Log _ _ => tt
  | JsonLoad _ => LoadJSONDecodeError
  | Listdir _ => Done []
  | Realpath p => Done p
  | Isfile _ => false
  | StatSize _ => Done 0%Z
  | CheckOutput _ _ => ProcOutput EmptyString
  end.

Definition string_in (x : string) (l : list string) : bool :=
  existsb (String.eqb x) l.

Definition string_remove (x : string) (l : list string) : list string :=
  List.filter (fun y => negb (String.eqb x y)) l.

(** The system that answers as [a] says and keeps the links it made. *)
Definition on (a : answers) : handler (list string) := fun c links =>
  match c return answer c * list string with
  | Symlink src dst =>
      if string_in dst links then (Fails (OSErr EEXIST "File exists"), links)
      else match a (Symlink src dst) with
           | Done u => (Done u, dst :: links)
           | Fails e => (Fails e, links)
           end
  | Unlink p =>
      match a (Unlink p) with
      | Done u => (Done u, string_remove p links)
      | Fails e => (Fails e, links)
      end
  | c' => (a c', links)
  end.

(** A root that holds the two files of pyre, a directory and a link of an
    earlier merge; the directory cannot be removed as a file and the link
    cannot be removed as a directory. *)
Definition cluttered : answers := fun c =>
  match c return answer c with
  | Listdir _ => Done [".pyre.lock"; ".pyre.source_directories"; "pkg"; "old.py"]
  | Remove p =>
      if Py.endswith p "pkg" then Fails (OSErr 21 "Is a directory") else Done tt
  | Rmtree p =>
      if Py.endswith p "pkg" then Done tt else Fails (OSErr ENOENT "No such file or directory")
  | c' => quiet c'
  end.

Definition shared : SharedSourceDirectory :=
  {| _source_directories := ["/src/a"; "/src/b"]; _isolate := false |}.

Definition isolated : SharedSourceDirectory :=
  {| _source_directories := ["/src/a"]; _isolate := true |}.

(** The manifest [prepare] writes for the directories [dirs]. *)
Definition manifest_of (dirs : list string) : json := JArr (map JStr dirs).

Definition nl : string := String Py.newline EmptyString.

(** Two source directories that both hold the package [pkg]: the
    initializer of the first is empty, the one of the second is not.  The
    root holds a link of an earlier merge, and no manifest. *)
Definition project : answers := fun c =>
  match c return answer c with
  | Open _ ModeR => Fails (OSErr ENOENT "No such file or directory")
  | Listdir _ => Done [".pyre.lock"; "old.py"]
  | CheckOutput argv _ =>
      if string_in "/src/a" argv then
        ProcOutput ("/src/a/pkg/__init__.py" +:+ nl +:+ "/src/a/pkg/mod.py" +:+ nl)
      else if string_in "/src/b" argv then
        ProcOutput ("/src/b/pkg/__init__.py" +:+ nl +:+ "/src/b/pkg/other.py" +:+ nl)
      else ProcOutput EmptyString
  | Isfile _ => true
  | StatSize p =>
      if String.eqb p "/src/a/pkg/__init__.py" then Done 0%Z else Done 10%Z
  | c' => quiet c'
  end.

(** The same project once [prepare] has written the manifest of three
    directories. *)
Definition prepared : answers := fun c =>
  match c return answer c with
  | Open _ ModeR => Done 4%Z
  | JsonLoad _ => Loaded (manifest_of ["/src/a"; "/src/b"; "/src/c"])
  | c' => project c'
  end.

(** ** Calls and events the statements below speak of *)

(** The call of [MercurialBackedFilesystem.list]. *)
Definition hg_files (pattern : string) : syscall :=
  CheckOutput ["hg"; "files"; "--include"; "**" +:+ pattern] true.

(** The call of [_find_python_paths] for a root that [abspath] has made
    absolute. *)
Definition find_files (root : string) : syscall :=
  CheckOutput
    ["find"; root;
     "("; "-name"; "*.py"; "-or"; "-name"; "*.pyi"; ")";
     "("; "-type"; "f"; "-or"; "-type"; "l"; ")";
     "-print"] true.

(** The command [acquire_lock] locks with. *)
Definition lock_command (blocking : bool) : Z :=
  if negb blocking then Z.lor LOCK_EX LOCK_NB else LOCK_EX.

(** The events with which [acquire_lock] lets go of a lock it holds: when the
    body of the [with] returned it unlocks and the lock file is closed; when
    the body raised the lock file is closed, which drops the lock. *)
Definition release {A : Type} (lockfile : Z) (body_outcome : outcome A)
    (unlock : sys unit) : list event :=
  match body_outcome with
  | Returns _ => [Ev (Lockf lockfile LOCK_UN) unlock; Ev (Close lockfile) tt]
  | Raises _ => [Ev (Close lockfile) tt]
  end.

(** How [with acquire_lock(...)] ends while the lock is held, from the way
    its body ended and the answer to the unlock. *)
Definition released_outcome {A : Type} (body_outcome : outcome A)
    (unlock : sys unit) : outcome A :=
  match body_outcome with
  | Returns a =>
      match unlock with
      | Done _ => Returns a
      | Fails e =>
          if is_FileNotFoundError (OSError e)
          then Raises (RuntimeError "generator didn't stop")
          else Raises (OSError e)
      end
  | Raises x =>
      if is_FileNotFoundError x
      then Raises (RuntimeError "generator didn't stop after throw()")
      else Raises x
  end.

(** The calls of a run, without their answers. *)
Definition call_of (e : event) : syscall :=
  match e with Ev c _ => c end.

Definition calls (tr : list event) : list syscall := map call_of tr.

(** What [_clear] does about one entry of the root. *)
Definition removal_calls (root name : string) : list syscall :=
  if Py.startswith name ".pyre" then []
  else [Remove (Py.path_join root name); Rmtree (Py.path_join root name)].

(** What a run learnt of the manifest: [open] raised, or [json.load] did
    something on the opened file. *)
Inductive reading :=
| NotOpened (e : oserror)
| Read (r : load_result).

(** The answer to an [open(path)] for reading; in [filesystem.py] only the
    manifest is opened so. *)
Definition opened_for_reading (e : event) : option (sys Z) :=
  match e with
  | Ev (Open _ ModeR) r => Some r
  | _ => None
  end.

Definition loaded (e : event) : option load_result :=
  match e with
  | Ev (JsonLoad _) r => Some r
  | _ => None
  end.

(** The reading of the manifest in a run: the first [open] for reading and,
    when it gave a file, the [json.load] that follows it. *)
Fixpoint manifest_reading (tr : list event) : option reading :=
  match tr with
  | [] => None
  | e :: tr' =>
      match opened_for_reading e with
      | Some (Fails err) => Some (NotOpened err)
      | Some (Done _) =>
          match tr' with
          | e' :: _ => option_map Read (loaded e')
          | [] => None
          end
      | None => manifest_reading tr'
      end
  end.

(** The calls of the steps of a rebuild. *)
Definition is_clear_call (c : syscall) : bool :=
  match c with Listdir _ | Remove _ | Rmtree _ => true | _ => false end.

Definition is_merge_call (c : syscall) : bool :=
  match c with
  | CheckOutput _ _ | Realpath _ | Isfile _ | StatSize _ => true
  | _ => false
  end.

Definition is_link_call (c : syscall) : bool :=
  match c with Symlink _ _ | Unlink _ => true | _ => false end.

(** Opening a file for writing, which empties it, and writing the list. *)
Definition is_manifest_write (c : syscall) : bool :=
  match c with Open _ ModeW | JsonDump _ _ => true | _ => false end.

Definition is_rebuild_call (c : syscall) : bool :=
  is_clear_call c || is_merge_call c || is_link_call c || is_manifest_write c.

(** An unlock that failed. *)
Definition unlock_refused (tr : list event) : bool :=
  existsb (fun e => match e with
                    | Ev (Lockf _ cmd) (Fails _) => Z.eqb cmd LOCK_UN
                    | _ => false
                    end) tr.

(** How [with acquire_lock(path, blocking): body] leaves its body. *)
Inductive locking {A : Type} (path : string) (blocking : bool)
    : option Z -> list event -> list event -> outcome A -> outcome A -> Prop :=
| locking_no_directory e ob :
    Z.eqb (errno e) ENOENT = true ->
    locking path blocking None [Ev (Open path ModeWPlus) (Fails e)] [] ob ob
| locking_no_lock lockfile e ob :
    Z.eqb (errno e) ENOENT = true ->
    locking path blocking None
      [Ev (Open path ModeWPlus) (Done lockfile);
       Ev (Lockf lockfile (lock_command blocking)) (Fails e);
       Ev (Close lockfile) tt] [] ob ob
| locking_held lockfile ob unlock :
    locking path blocking (Some lockfile)
      [Ev (Open path ModeWPlus) (Done lockfile);
       Ev (Lockf lockfile (lock_command blocking)) (Done tt)]
      (release lockfile ob unlock) ob (released_outcome ob unlock).


(** The runs of the [try] of [prepare] on the manifest [manifest] for the
    requested directories [dirs]: their events and how they end. *)
Inductive checked (manifest : string) (dirs : list string)
    : list event -> outcome bool -> Prop :=
| checked_up_to_date file v tracked :
    py_set v = Ret tracked -> issubset dirs tracked = true ->
    checked manifest dirs
      [Ev (Open manifest ModeR) (Done file); Ev (JsonLoad file) (Loaded v);
       Ev (Close file) tt;
       Ev (Log INFO "Shared source directory is up to date") tt]
      (Returns true)
| checked_stale file v tracked :
    py_set v = Ret tracked -> issubset dirs tracked = false ->
    checked manifest dirs
      [Ev (Open manifest ModeR) (Done file); Ev (JsonLoad file) (Loaded v);
       Ev (Close file) tt]
      (Returns false)
| checked_not_opened e :
    checked manifest dirs [Ev (Open manifest ModeR) (Fails e)] (Returns false)
| checked_not_read file e :
    checked manifest dirs
      [Ev (Open manifest ModeR) (Done file); Ev (JsonLoad file) (LoadOSError e);
       Ev (Close file) tt]
      (Returns false)
| checked_not_json file :
    checked manifest dirs
      [Ev (Open manifest ModeR) (Done file); Ev (JsonLoad file) LoadJSONDecodeError;
       Ev (Close file) tt]
      (Returns false)
| checked_not_text file :
    checked manifest dirs
      [Ev (Open manifest ModeR) (Done file);
       Ev (JsonLoad file) LoadUnicodeDecodeError; Ev (Close file) tt]
      (Raises UnicodeDecodeError)
| checked_not_a_set file v msg :
    py_set v = Throw (TypeError msg) ->
    checked manifest dirs
      [Ev (Open manifest ModeR) (Done file); Ev (JsonLoad file) (Loaded v);
       Ev (Close file) tt]
      (Raises (TypeError msg)).

(** A reading of the manifest that [prepare] takes for a miss: the file is
    absent or cannot be opened, cannot be read, or does not hold JSON. *)
Definition is_miss (m : reading) : bool :=
  match m with
  | NotOpened _ | Read (LoadOSError _) | Read LoadJSONDecodeError => true
  | Read (Loaded _) | Read LoadUnicodeDecodeError => false
  end.

(** The links [_merge] makes for a mapping. *)
Definition links_of (root : string) (all_paths : Dict.t) : list syscall :=
  map (fun entry : string * string =>
         Symlink entry.2 (Py.path_join root entry.1)) all_paths.

(** No call of a clear, of a merge or of the making of the links. *)
Definition is_work_call (c : syscall) : bool :=
  is_clear_call c || is_merge_call c || is_link_call c.

(** Every call a program can make is in [P]. *)
Fixpoint within {A : Type} (P : syscall -> bool) (p : prog A) : Prop :=
  match p with
  | Ret _ | Throw _ => True
  | Vis c k => P c = true /\ forall x, within P (k x)
  end.

(** The calls of the second loop of [_merge]. *)
Definition is_linking_call (c : syscall) : bool :=
  match c with
  | Makedirs _ | Symlink _ _ | Unlink _ | Log _ _ => true
  | _ => false
  end.

(** What a run shows of a candidate [path] that [_merge_source_directory]
    enters under the key [relative] with the value [absolute]: [realpath]
    gave [absolute], [isfile] said it is a regular file, and when the key
    ends in [__init__.py] the size that [stat] gave is not zero, or [stat]
    did not find the file any more. *)
Inductive acceptance (path relative absolute : string) : list event -> Prop :=
| accepted_file :
    Py.endswith relative "__init__.py" = false ->
    acceptance path relative absolute
      [Ev (Realpath path) (Done absolute); Ev (Isfile absolute) true]
| accepted_init size :
    Py.endswith relative "__init__.py" = true -> size <> 0%Z ->
    acceptance path relative absolute
      [Ev (Realpath path) (Done absolute); Ev (Isfile absolute) true;
       Ev (StatSize absolute) (Done size)]
| accepted_vanished e :
    Py.endswith relative "__init__.py" = true -> errno e = ENOENT ->
    acceptance path relative absolute
      [Ev (Realpath path) (Done absolute); Ev (Isfile absolute) true;
       Ev (StatSize absolute) (Fails e)].

(** The run [tr] holds the acceptance of a candidate of the source directory
    [source_directory] under the key [relative] with the value [absolute]. *)
Definition accepted_in (cwd : string) (tr : list event)
    (source_directory relative absolute : string) : Prop :=
  exists path before accepted after,
    tr = before ++ accepted ++ after /\
    path <> EmptyString /\
    relative = Py.relpath_nonempty cwd path source_directory /\
    acceptance path relative absolute accepted.

(** A system that answers every call of a merge as [a] says, whatever
    happened before: the files do not change while the merge runs. *)
Definition answers_merge_as {W : Type} (h : handler W) (a : answers) : Prop :=
  forall c w, is_merge_call c = true -> (h c w).1 = a c.

(** The system without a state that answers as [a] says. *)
Definition always (a : answers) : handler unit := fun c w => (a c, w).

(** Leaving a [with] block: the exit runs however the block ended, and an
    exception of the exit replaces the end of the block. *)
Definition after_exit {A : Type} (o1 : outcome A) (o2 : outcome unit) : outcome A :=
  match o2 with
  | Returns _ => o1
  | Raises e => Raises e
  end.
(** ** Failures that [prepare] has no handler for *)

(** An answer that makes the code raise where no [except] of [prepare] and
    of the functions it calls catches the exception:
    - the lock file cannot be opened for another reason than a missing
      directory, or cannot be locked for another reason; the unlock fails;
    - the root cannot be listed;
    - the manifest read is not text, or not a collection of hashable values;
    - the manifest cannot be opened for writing, or written;
    - [find] cannot be started, or its output is not UTF-8, or has an empty
      line once the white space around it is dropped (an empty output has
      one);
    - [realpath] or [stat] fails for another reason than a missing file;
    - a link that exists cannot be removed. *)
Definition unguarded (e : event) : bool :=
  match e with
  | Ev (Open _ ModeWPlus) (Fails e) => negb (Z.eqb (errno e) ENOENT)
  | Ev (Open _ ModeW) (Fails _) => true
  | Ev (Lockf _ cmd) (Fails e) =>
      Z.eqb cmd LOCK_UN || negb (Z.eqb (errno e) ENOENT)
  | Ev (Listdir _) (Fails _) => true
  | Ev (JsonLoad _) LoadUnicodeDecodeError => true
  | Ev (JsonLoad _) (Loaded v) =>
      match py_set v with Throw _ => true | _ => false end
  | Ev (JsonDump _ _) (Fails _) => true
  | Ev (CheckOutput _ _) (ProcOSError _) => true
  | Ev (CheckOutput _ _) ProcUndecodable => true
  | Ev (CheckOutput _ _) (ProcOutput out) =>
      existsb Py.is_empty_string (Py.split_on Py.newline (Py.strip out))
  | Ev (Realpath _) (Fails e) => negb (Z.eqb (errno e) ENOENT)
  | Ev (StatSize _) (Fails e) => negb (Z.eqb (errno e) ENOENT)
  | Ev (Unlink _) (Fails _) => true
  | _ => false
  end.

(** The [symlink] that follows an [unlink] is the second attempt at a link:
    its failure is not caught. *)
Definition retry_refused (e : event) (rest : list event) : bool :=
  match e, rest with
  | Ev (Unlink _) _, Ev (Symlink _ _) (Fails _) :: _ => true
  | _, _ => false
  end.

(** The run has a failure that nothing catches. *)
Fixpoint escapes (tr : list event) : bool :=
  match tr with
  | [] => false
  | e :: tr' => unguarded e || retry_refused e tr' || escapes tr'
  end.

(** [find] ended with a status that is not zero. *)
Definition listing_failed (tr : list event) : bool :=
  existsb (fun e => match e with
                    | Ev (CheckOutput _ _) (ProcExit _) => true
                    | _ => false
                    end) tr.

(** After a [symlink] that failed because the path exists, the path is
    removed and the same link made. *)
Definition retried (src dst : string) (rest : list event) : bool :=
  match rest with
  | Ev (Unlink p) (Done _) :: Ev (Symlink src' dst') (Done _) :: _ =>
      String.eqb p dst && String.eqb src' src && String.eqb dst' dst
  | _ => false
  end.

(** After a [symlink] that failed otherwise, the error is logged. *)
Definition logged (e : oserror) (rest : list event) : bool :=
  match rest with
  | Ev (Log ERROR msg) _ :: _ => String.eqb msg (strerror e)
  | _ => false
  end.

(** Every failure of a [symlink] in the run is followed by the removal and
    the second attempt, or by the log entry. *)
Fixpoint link_failures_handled (tr : list event) : bool :=
  match tr with
  | [] => true
  | e :: tr' =>
      match e with
      | Ev (Symlink src dst) (Fails e) =>
          if Z.eqb (errno e) EEXIST then retried src dst tr' else logged e tr'
      | _ => true
      end && link_failures_handled tr'
  end.


(** How a run of [prepare] without such a failure goes and ends. *)
Definition settled {A : Type} (tr : list event) (o : outcome A) : Prop :=
  link_failures_handled tr = true /\
  match o with
  | Returns _ => listing_failed tr = false
  | Raises e => e = EnvironmentException_no_source_directory /\ listing_failed tr = true
  end.

(** The root cannot be written to: the lock file cannot be created. *)
Definition read_only : answers := fun c =>
  match c return answer c with
  | Makedirs _ => Fails (OSErr EEXIST "File exists")
  | Open _ ModeWPlus => Fails (OSErr EACCES "Permission denied")
  | c' => quiet c'
  end.

(** Every run of [p] without such a failure ends that way. *)
Definition absorbs {A : Type} (p : prog A) : Prop :=
  forall tr o, runs p tr o -> escapes tr = false -> settled tr o.

(** The project on a machine without [find]. *)
Definition without_find : answers := fun c =>
  match c return answer c with
  | CheckOutput _ _ => ProcOSError (OSErr ENOENT "No such file or directory: 'find'")
  | c' => project c'
  end.
(** ** The rest of [filesystem.py] *)

(** The string has a character that [str.split()] splits at. *)
Fixpoint holds_space (s : string) : bool :=
  match s with
  | EmptyString => false
  | String c s' => Py.isspace c || holds_space s'
  end.

(** The call of [Filesystem.list]. *)
Definition find_named (root pattern : string) : syscall :=
  CheckOutput ["find"; root; "-name"; "*" +:+ pattern] false.

(** The call of [get_filesystem]. *)
Definition hg_status : syscall := CheckOutput ["hg"; "status"] true.

(** The runs of one turn of the second loop of [_merge], for the link
    [merged] to [original]. *)
Inductive linked (original merged : string) : list event -> outcome unit -> Prop :=
| linked_at_once made :
    linked original merged
      [Ev (Makedirs (Py.dirname merged)) made;
       Ev (Symlink original merged) (Done tt)]
      (Returns tt)
| linked_again made e :
    errno e = EEXIST ->
    linked original merged
      [Ev (Makedirs (Py.dirname merged)) made;
       Ev (Symlink original merged) (Fails e);
       Ev (Unlink merged) (Done tt);
       Ev (Symlink original merged) (Done tt)]
      (Returns tt)
| linked_not_removed made e e' :
    errno e = EEXIST ->
    linked original merged
      [Ev (Makedirs (Py.dirname merged)) made;
       Ev (Symlink original merged) (Fails e);
       Ev (Unlink merged) (Fails e')]
      (Raises (OSError e'))
| linked_refused_again made e e' :
    errno e = EEXIST ->
    linked original merged
      [Ev (Makedirs (Py.dirname merged)) made;
       Ev (Symlink original merged) (Fails e);
       Ev (Unlink merged) (Done tt);
       Ev (Symlink original merged) (Fails e')]
      (Raises (OSError e'))
| linked_skipped made e :
    errno e <> EEXIST ->
    linked original merged
      [Ev (Makedirs (Py.dirname merged)) made;
       Ev (Symlink original merged) (Fails e);
       Ev (Log ERROR (strerror e)) tt]
      (Returns tt).

(** The runs of the second loop of [_merge] over the entries of the mapping:
    a turn for each entry in order, up to the first turn that raises. *)
Inductive link_loop (root : string)
    : list (string * string) -> list event -> outcome unit -> Prop :=
| link_loop_done : link_loop root [] [] (Returns tt)
| link_loop_turn relative original rest t1 t2 o :
    linked original (Py.path_join root relative) t1 (Returns tt) ->
    link_loop root rest t2 o ->
    link_loop root ((relative, original) :: rest) (t1 ++ t2) o
| link_loop_stop relative original rest t1 e :
    linked original (Py.path_join root relative) t1 (Raises e) ->
    link_loop root ((relative, original) :: rest) t1 (Raises e).

(** The exception of [set(json.load(file))] for a manifest that is read but
    is not text or not a collection of hashable values. *)
Definition unusable (r : load_result) : option exn :=
  match r with
  | LoadUnicodeDecodeError => Some UnicodeDecodeError
  | Loaded v => match py_set v with Throw x => Some x | _ => None end
  | _ => None
  end.

(** A manifest that holds [null]. *)
Definition nulled : answers := fun c =>
  match c return answer c with
  | Open _ ModeR => Done 4%Z
  | JsonLoad _ => Loaded JNull
  | c' => project c'
  end.

(** A manifest of an earlier [prepare] for the first directory alone. *)
Definition outdated : answers := fun c =>
  match c return answer c with
  | Open _ ModeR => Done 4%Z
  | JsonLoad _ => Loaded (manifest_of ["/src/a"])
  | c' => project c'
  end.

(** The list that the last [json.dump] of the run that succeeded wrote. *)
Fixpoint last_written (tr : list event) : option (list string) :=
  match tr with
  | [] => None
  | e :: tr' =>
      match last_written tr' with
      | Some l => Some l
      | None =>
          match e with
          | Ev (JsonDump l _) (Done _) => Some l
          | _ => None
          end
      end
  end.

(** What a reader finds in the manifest after a run of [prepare] that
    returned, on a system that keeps its files: the list the run wrote, or,
    when it wrote nothing, what it read itself. *)
Definition manifest_after (tr : list event) : option reading :=
  match last_written tr with
  | Some l => Some (Read (Loaded (manifest_of l)))
  | None => manifest_reading tr
  end.

(** The project once [prepare] has written the manifest of its two
    directories. *)
Definition rebuilt : answers := fun c =>
  match c return answer c with
  | Open _ ModeR => Done 4%Z
  | JsonLoad _ => Loaded (manifest_of ["/src/a"; "/src/b"])
  | c' => project c'
  end.

(** The string has the character [c]. *)
Fixpoint holds (c : ascii) (s : string) : bool :=
  match s with
  | EmptyString => false
  | String a s' => Ascii.eqb a c || holds c s'
  end.

(** The calls on files and the log: every call but the start of a process
    and the lock. *)
Definition is_file_call (c : syscall) : bool :=
  match c with
  | CheckOutput _ _ | Lockf _ _ => false
  | _ => true
  end.

Definition is_not_lockf (c : syscall) : bool :=
  match c with Lockf _ _ => false | _ => true end.

(** The run has locked the lock file. *)
Definition lock_granted (tr : list event) : bool :=
  existsb (fun e => match e with
                    | Ev (Lockf _ cmd) (Done _) => negb (Z.eqb cmd LOCK_UN)
                    | _ => false
                    end) tr.

(** Every run of [p] that holds the event [ev] ends with the exception
    [x]. *)
Definition stops_at {A : Type} (ev : event) (x : exn) (p : prog A) : Prop :=
  forall tr o, runs p tr o -> In ev tr -> o = Raises x.

(** The answer to a [check_output]. *)
Definition process_answer (e : event) : option proc_result :=
  match e with
  | Ev (CheckOutput _ _) r => Some r
  | _ => None
  end.

(** A manifest whose bytes are not UTF-8. *)
Definition garbled : answers := fun c =>
  match c return answer c with
  | Open _ ModeR => Done 4%Z
  | JsonLoad _ => LoadUnicodeDecodeError
  | c' => project c'
  end.
(** ** The string and path functions on the values CPython gives *)

Example startswith_pyre : Py.startswith ".pyre.lock" ".pyre" = true.
Proof. reflexivity. Qed.

Example endswith_init : Py.endswith "pkg/__init__.py" "__init__.py" = true.
Proof. reflexivity. Qed.

Example endswith_pyi : Py.endswith "pkg/__init__.pyi" "__init__.py" = false.
Proof. reflexivity. Qed.

Example split_empty : Py.split_on Py.newline "" = [""].
Proof. reflexivity. Qed.

Example split_ws_empty : Py.split_ws "" = [].
Proof. reflexivity. Qed.

Example split_ws_two : Py.split_ws " a.py  b/c.py " = ["a.py"; "b/c.py"].
Proof. reflexivity. Qed.

Example join_lock :
  Py.path_join ".pyre/shared_source_directory" ".pyre.lock"
  = ".pyre/shared_source_directory/.pyre.lock".
Proof. reflexivity. Qed.

Example dirname_nested : Py.dirname ".pyre/x/pkg/mod.py" = ".pyre/x/pkg".
Proof. reflexivity. Qed.

Example dirname_double : Py.dirname "a//b" = "a" /\ Py.dirname "//a" = "//" /\ Py.dirname "a" = "".
Proof. repeat split; reflexivity. Qed.

Example normpath_dots :
  Py.normpath "//a/../b/./c//" = "//b/c" /\ Py.normpath "a/../.." = ".."
  /\ Py.normpath "/.." = "/".
Proof. repeat split; reflexivity. Qed.

Example relpath_inside :
  Py.relpath_nonempty "/home/u" "/src/a/pkg/__init__.py" "/src/a" = "pkg/__init__.py".
Proof. reflexivity. Qed.

Example relpath_relative_start :
  Py.relpath_nonempty "/home/u" "/home/u/a/pkg/mod.py" "a" = "pkg/mod.py"
  /\ Py.relpath_nonempty "/home/u" "/home/x.py" "a" = "../../x.py".
Proof. split; reflexivity. Qed.

(** ** Runs of composed programs *)

Section RunLemmas.

Context {A B : Type}.

(** Whatever a system does is a run. *)
Lemma run_runs {W : Type} (h : handler W) (p : prog A) (w : W) :
  runs p (trace_of (run h p w)) (outcome_of (run h p w)).
Proof.
  revert w. induction p as [a|e|c k IH]; intros w; simpl; auto.
  destruct (h c w) as [x w']. simpl. exists x, (trace_of (run h (k x) w')).
  split; [reflexivity | apply IH].
Qed.

Lemma runs_bind (p : prog A) (f : A -> prog B) tr o :
  runs (bind p f) tr o <->
  (exists e, runs p tr (Raises e) /\ o = Raises e) \/
  (exists a t1 t2, runs p t1 (Returns a) /\ runs (f a) t2 o /\ tr = t1 ++ t2).
Proof.
  revert tr. induction p as [a|e|c k IH]; intros tr; simpl.
  - split; [intros H; right; exists a, [], tr; done |].
    intros [(e & [_ H] & _) | (a' & t1 & t2 & [-> H] & H2 & ->)]; [done|].
    by simplify_eq/=.
  - split.
    + intros [-> ->]. left. by exists e.
    + intros [(e' & [-> H] & ->) | (a' & t1 & t2 & [_ H] & _)]; [by simplify_eq | done].
  - split.
    + intros (x & tr' & -> & H). apply IH in H.
      destruct H as [(e & H & ->) | (a & t1 & t2 & H1 & H2 & ->)].
      * left. exists e. split; [exists x, tr'; done | done].
      * right. exists a, (Ev c x :: t1), t2. split; [exists x, t1; done | done].
    + intros [(e & (x & tr' & -> & H) & ->) | (a & t1 & t2 & (x & t1' & -> & H1) & H2 & ->)].
      * exists x, tr'. split; [done|]. apply IH. left. eauto.
      * exists x, (t1' ++ t2). split; [done|]. apply IH. right.
        exists a, t1', t2. done.
Qed.

Lemma runs_bind_returns (p : prog A) (f : A -> prog B) a t1 t2 o :
  runs p t1 (Returns a) -> runs (f a) t2 o -> runs (bind p f) (t1 ++ t2) o.
Proof. intros H1 H2. apply runs_bind. right. exists a, t1, t2. auto. Qed.

Lemma runs_bind_raises (p : prog A) (f : A -> prog B) e tr :
  runs p tr (Raises e) -> runs (bind p f) tr (Raises e).
Proof. intros H. apply runs_bind. left. eauto. Qed.

End RunLemmas.

Section RunLemmas1.

Context {A : Type}.

Lemma runs_try_except (p : prog A) matches handler tr o :
  runs (try_except p matches handler) tr o <->
  (exists a, runs p tr (Returns a) /\ o = Returns a) \/
  (exists e, runs p tr (Raises e) /\ matches e = false /\ o = Raises e) \/
  (exists e t1 t2, runs p t1 (Raises e) /\ matches e = true /\
                   runs (handler e) t2 o /\ tr = t1 ++ t2).
Proof.
  revert tr. induction p as [a|e|c k IH]; intros tr; simpl.
  - split.
    + intros [-> ->]. left. by exists a.
    + intros [(a' & [-> H] & ->) | [(e & [_ H] & _) | (e & t1 & t2 & [_ H] & _)]];
        [by simplify_eq | done | done].
  - destruct (matches e) eqn:Hm; split.
    + intros H. right. right. exists e, [], tr. done.
    + intros [(a' & [_ Ha] & _) | [(e' & [-> He] & Hm' & ->) | (e' & t1 & t2 & [-> He] & Hm' & H & ->)]];
        [done | congruence | by simplify_eq/=].
    + intros [-> ->]. right. left. exists e. done.
    + intros [(a' & [_ Ha] & _) | [(e' & [-> He] & Hm' & ->) | (e' & t1 & t2 & [-> He] & Hm' & H & ->)]];
        [done | by simplify_eq/= | congruence].
  - split.
    + intros (x & tr' & -> & H). apply IH in H.
      destruct H as [(a & H & ->) | [(e & H & Hm & ->) | (e & t1 & t2 & H1 & Hm & H2 & ->)]].
      * left. exists a. split; [exists x, tr'; done | done].
      * right. left. exists e. split; [exists x, tr'; done | done].
      * right. right. exists e, (Ev c x :: t1), t2.
        split; [exists x, t1; done | done].
    + intros [(a & (x & tr' & -> & H) & ->)
             | [(e & (x & tr' & -> & H) & Hm & ->)
               | (e & t1 & t2 & (x & t1' & -> & H1) & Hm & H2 & ->)]].
      * exists x, tr'. split; [done|]. apply IH. left. eauto.
      * exists x, tr'. split; [done|]. apply IH. right. left. eauto.
      * exists x, (t1' ++ t2). split; [done|]. apply IH. right. right.
        exists e, t1', t2. done.
Qed.

Lemma runs_finally (p : prog A) (q : prog unit) tr o :
  runs (finally p q) tr o <->
  exists t1 o1 t2 o2, runs p t1 o1 /\ runs q t2 o2 /\ tr = t1 ++ t2 /\
                      o = after_exit o1 o2.
Proof.
  revert tr. induction p as [a|e|c k IH]; intros tr; simpl.
  - rewrite runs_bind. split.
    + intros [(e & H & ->) | (u & t1 & t2 & H1 & [-> ->] & ->)].
      * exists [], (Returns a), tr, (Raises e). done.
      * exists [], (Returns a), t1, (Returns u). rewrite app_nil_r. done.
    + intros (t1 & o1 & t2 & o2 & [-> ->] & H2 & -> & ->). simpl.
      destruct o2 as [u|e]; simpl.
      * right. exists u, t2, []. rewrite app_nil_r. done.
      * left. eauto.
  - rewrite runs_bind. split.
    + intros [(e' & H & ->) | (u & t1 & t2 & H1 & [-> ->] & ->)].
      * exists [], (Raises e), tr, (Raises e'). done.
      * exists [], (Raises e), t1, (Returns u). rewrite app_nil_r. done.
    + intros (t1 & o1 & t2 & o2 & [-> ->] & H2 & -> & ->). simpl.
      destruct o2 as [u|e']; simpl.
      * right. exists u, t2, []. rewrite app_nil_r. done.
      * left. eauto.
  - split.
    + intros (x & tr' & -> & H). apply IH in H.
      destruct H as (t1 & o1 & t2 & o2 & H1 & H2 & -> & ->).
      exists (Ev c x :: t1), o1, t2, o2. split; [exists x, t1; done | done].
    + intros (t1 & o1 & t2 & o2 & (x & t1' & -> & H1) & H2 & -> & ->).
      exists x, (t1' ++ t2). split; [done|]. apply IH.
      exists t1', o1, t2, o2. done.
Qed.

End RunLemmas1.

(** A call that cannot fail, and a call that raises when it fails. *)
Lemma runs_call (c : syscall) tr (o : outcome (answer c)) :
  runs (call c) tr o <-> exists x, tr = [Ev c x] /\ o = Returns x.
Proof.
  unfold call. simpl. split.
  - intros (x & tr' & -> & -> & ->). eauto.
  - intros (x & -> & ->). exists x, []. done.
Qed.

Lemma runs_call_sys {A : Type} (c : syscall) (cast : answer c -> sys A) tr o :
  runs (call_sys c cast) tr o <->
  exists x, tr = [Ev c x] /\
            o = match cast x with
                | Done a => Returns a
                | Fails e => Raises (OSError e)
                end.
Proof.
  unfold call_sys. simpl. split.
  - intros (x & tr' & -> & H). exists x. destruct (cast x); destruct H as [-> ->]; done.
  - intros (x & -> & ->). exists x, []. split; [done|].
    destruct (cast x); simpl; done.
Qed.

(** A property of the events of every run of a loop follows from the same
    property of every turn. *)
Lemma runs_for_each_Forall {A : Type} (P : event -> Prop) (l : list A)
    (body : A -> prog unit) :
  (forall x tr o, In x l -> runs (body x) tr o -> Forall P tr) ->
  forall tr o, runs (for_each l body) tr o -> Forall P tr.
Proof.
  induction l as [|x l IH]; intros Hbody tr o; simpl.
  - intros [-> _]. constructor.
  - fold (@bind unit unit). intros H. apply runs_bind in H.
    destruct H as [(e & H & _) | (u & t1 & t2 & H1 & H2 & ->)].
    + eapply Hbody; [left; reflexivity | exact H].
    + apply Forall_app. split.
      * eapply Hbody; [left; reflexivity | exact H1].
      * eapply IH; [|exact H2]. intros y tr' o' Hy. apply Hbody. right. exact Hy.
Qed.

Lemma runs_for_fold_Forall {A S : Type} (P : event -> Prop) (l : list A)
    (body : S -> A -> prog S) :
  (forall s x tr o, In x l -> runs (body s x) tr o -> Forall P tr) ->
  forall s tr o, runs (for_fold l body s) tr o -> Forall P tr.
Proof.
  induction l as [|x l IH]; intros Hbody s tr o; simpl.
  - intros [-> _]. constructor.
  - intros H. apply runs_bind in H.
    destruct H as [(e & H & _) | (u & t1 & t2 & H1 & H2 & ->)].
    + eapply Hbody; [left; reflexivity | exact H].
    + apply Forall_app. split.
      * eapply Hbody; [left; reflexivity | exact H1].
      * eapply IH; [|exact H2]. intros s' y tr' o' Hy. apply Hbody. right. exact Hy.
Qed.

(** ** Runs on a system *)

Lemma run_bind {W A B : Type} (h : handler W) (p : prog A) (f : A -> prog B) (w : W) :
  run h (bind p f) w =
  let r := run h p w in
  match outcome_of r with
  | Returns a =>
      let r2 := run h (f a) (world_of r) in
      Execution (outcome_of r2) (trace_of r ++ trace_of r2) (world_of r2)
  | Raises e => Execution (Raises e) (trace_of r) (world_of r)
  end.
Proof.
  revert w. induction p as [a|e|c k IH]; intros w; simpl.
  - by destruct (run h (f a) w).
  - done.
  - destruct (h c w) as [x w']. rewrite IH. simpl.
    by destruct (outcome_of (run h (k x) w')).
Qed.

Lemma run_while_locked {W A : Type} (h : handler W) (lockfile : Z) (p : prog A) (w : W) :
  run h (while_locked lockfile p) w =
  let b := run h p w in
  match outcome_of b with
  | Returns _ =>
      let unlock := h (Lockf lockfile LOCK_UN) (world_of b) in
      Execution (released_outcome (outcome_of b) unlock.1)
        (trace_of b ++ release lockfile (outcome_of b) unlock.1)
        (h (Close lockfile) unlock.2).2
  | Raises _ =>
      Execution (released_outcome (outcome_of b) (Done tt))
        (trace_of b ++ release lockfile (outcome_of b) (Done tt))
        (h (Close lockfile) (world_of b)).2
  end.
Proof.
  revert w. induction p as [a|e|c k IH]; intros w; simpl.
  - destruct (h (Lockf lockfile LOCK_UN) w) as [l w1]. simpl.
    destruct (h (Close lockfile) w1) as [[] w2]. simpl.
    destruct l as [[]|e]; simpl; [done|].
    by destruct (Z.eqb (errno e) ENOENT).
  - destruct (h (Close lockfile) w) as [[] w1]. simpl.
    by destruct (is_FileNotFoundError e).
  - destruct (h c w) as [x w']. rewrite IH. simpl.
    by destruct (outcome_of (run h (k x) w')).
Qed.

Lemma calls_cons (e : event) (tr : list event) :
  calls (e :: tr) = call_of e :: calls tr.
Proof. reflexivity. Qed.

Lemma calls_app (t1 t2 : list event) : calls (t1 ++ t2) = calls t1 ++ calls t2.
Proof. unfold calls. apply map_app. Qed.

(** ** The listers *)

(** C8.  [MercurialBackedFilesystem.list] makes one call, [hg files], and
    what it does follows from what the call did: the words of the output of
    a tool that exited with 0; the empty list when the tool exited with 1;
    an [EnvironmentException] for any other exit status, and an
    [EnvironmentException] when the executable is missing (the
    [FileNotFoundError] of [subprocess]).  An output that is not UTF-8 ends
    it with the [UnicodeDecodeError] of [decode], and any other failure to
    start the tool with its [OSError]. *)
Theorem hg_list_by_exit_status {W : Type} (h : handler W) (w : W)
    (root pattern : string) :
  let r := run h (MercurialBackedFilesystem_list root pattern) w in
  let hg := (h (hg_files pattern) w).1 in
  trace_of r = [Ev (hg_files pattern) hg] /\
  outcome_of r =
    match hg with
    | ProcOutput out => Returns (Py.split_ws out)
    | ProcUndecodable => Raises UnicodeDecodeError
    | ProcExit returncode =>
        if Z.eqb returncode 1 then Returns []
        else Raises (EnvironmentException
                       ("Unexpected return code " +:+ pretty returncode
                        +:+ " from call to `hg files`."))
    | ProcOSError e =>
        if Z.eqb (errno e) ENOENT
        then Raises (EnvironmentException "hg executable not found.")
        else Raises (OSError e)
    end.
Proof.
  unfold MercurialBackedFilesystem_list, hg_files. simpl.
  destruct (h _ w) as [[out| |code|e] w1]; simpl.
  - done.
  - done.
  - destruct (Z.eqb code 1); done.
  - unfold is_CalledProcessError_or_FileNotFoundError. simpl.
    destruct (Z.eqb (errno e) ENOENT); done.
Qed.

Lemma split_on_not_nil (sep : ascii) (s : string) : Py.split_on sep s <> [].
Proof.
  destruct s as [|c s]; simpl; [done|].
  destruct (Ascii.eqb c sep); [done|]. by destruct (Py.split_on sep s).
Qed.

Lemma run_find_python_paths {W : Type} (h : handler W) (w : W) (cwd root : string) :
  let found := h (find_files (Py.abspath cwd root)) w in
  run h (_find_python_paths cwd root) w =
  Execution
    match found.1 with
    | ProcOutput out => Returns (Py.split_on Py.newline (Py.strip out))
    | ProcUndecodable => Raises UnicodeDecodeError
    | ProcExit _ => Raises EnvironmentException_no_source_directory
    | ProcOSError e => Raises (OSError e)
    end
    [Ev (find_files (Py.abspath cwd root)) found.1]
    found.2.
Proof.
  unfold _find_python_paths, find_files. simpl.
  by destruct (h _ w) as [[out| |code|e] w1].
Qed.

(** C9.  When [find] exits with 0, [_find_python_paths] returns the lines of
    its output without the white space around it, and that list is never
    empty: for a [find] that printed nothing it is the list of the empty
    string.  [_merge_source_directory] runs its loop on that very list, the
    empty string included. *)
Theorem find_python_paths_never_empty {W : Type} (h : handler W) (w : W)
    (cwd root out : string) (all_paths : Dict.t) :
  let find := find_files (Py.abspath cwd root) in
  (h find w).1 = ProcOutput out ->
  let paths := Py.split_on Py.newline (Py.strip out) in
  let merge := run h (_merge_source_directory cwd root all_paths) w in
  let loop := run h (for_fold paths (merge_path cwd root) all_paths) (h find w).2 in
  outcome_of (run h (_find_python_paths cwd root) w) = Returns paths /\
  1 <= length paths /\
  (Py.strip out = "" -> paths = [""]) /\
  trace_of merge = Ev find (ProcOutput out) :: trace_of loop /\
  outcome_of merge = outcome_of loop.
Proof.
  intros find Hfind paths merge loop. subst merge loop.
  unfold _merge_source_directory. rewrite run_bind, run_find_python_paths.
  fold find. simpl. destruct (h find w) as [x w1]. simpl in *. subst x.
  fold paths. repeat split.
  - pose proof (split_on_not_nil Py.newline (Py.strip out)) as Hne.
    subst paths. destruct (Py.split_on _ _); [done | simpl; lia].
  - intros Hout. subst paths. by rewrite Hout.
Qed.

Lemma find_python_paths_never_empty_witness :
  outcome_of (run (on quiet) (_find_python_paths "/home/u" "/src/empty") [])
  = Returns [""].
Proof.
  exact (proj1 (find_python_paths_never_empty (on quiet) [] "/home/u"
                  "/src/empty" "" [] eq_refl)).
Defined.

(** ** [acquire_lock] *)

(** C7.  What [with acquire_lock(path, blocking): body] does on any system.
    When [open] fails because the directory of the lock file is missing
    ([FileNotFoundError]), no lock is asked for: the run is the failed [open]
    followed by the body run on [None], and it ends as the body ends.  When
    the lock file opens, an exclusive lock is asked for, and once it is
    granted the run is the body on the descriptor followed by [release]: the
    unlock and the closing of the lock file when the body returned, the
    closing of the lock file, which drops the lock, when it raised. *)
Theorem acquire_lock_degrades_or_locks {W A : Type} (h : handler W) (w : W)
    (path : string) (blocking : bool) (body : option Z -> prog A) :
  let r := run h (acquire_lock path blocking body) w in
  let opened := h (Open path ModeWPlus) w in
  match opened.1 with
  | Fails e =>
      if Z.eqb (errno e) ENOENT then
        let b := run h (body None) opened.2 in
        trace_of r = Ev (Open path ModeWPlus) (Fails e) :: trace_of b /\
        outcome_of r = outcome_of b
      else
        trace_of r = [Ev (Open path ModeWPlus) (Fails e)] /\
        outcome_of r = Raises (OSError e)
  | Done lockfile =>
      let command := lock_command blocking in
      let locked := h (Lockf lockfile command) opened.2 in
      Z.land command LOCK_EX = LOCK_EX /\
      match locked.1 with
      | Done u =>
          let b := run h (body (Some lockfile)) locked.2 in
          let unlock := (h (Lockf lockfile LOCK_UN) (world_of b)).1 in
          trace_of r =
            Ev (Open path ModeWPlus) (Done lockfile)
            :: Ev (Lockf lockfile command) (Done u)
            :: trace_of b ++ release lockfile (outcome_of b) unlock /\
          outcome_of r = released_outcome (outcome_of b) unlock
      | Fails e =>
          let closed := h (Close lockfile) locked.2 in
          let b := run h (body None) closed.2 in
          let refused :=
            [Ev (Open path ModeWPlus) (Done lockfile);
             Ev (Lockf lockfile command) (Fails e);
             Ev (Close lockfile) tt] in
          if Z.eqb (errno e) ENOENT then
            trace_of r = refused ++ trace_of b /\ outcome_of r = outcome_of b
          else
            trace_of r = refused /\ outcome_of r = Raises (OSError e)
      end
  end.
Proof.
  unfold acquire_lock, lock_command. simpl.
  destruct (h (Open path ModeWPlus) w) as [[lockfile|e] w1]; simpl.
  - split; [by destruct blocking|].
    destruct (h (Lockf lockfile _) w1) as [[u|e] w2]; simpl.
    + rewrite run_while_locked. simpl.
      destruct (run h (body (Some lockfile)) w2) as [[a|x] tb wb]; simpl.
      * by destruct u.
      * by destruct u.
    + destruct (h (Close lockfile) w2) as [[] w3]. simpl.
      destruct (Z.eqb (errno e) ENOENT); simpl; [|done].
      by destruct (run h (body None) w3).
  - destruct (Z.eqb (errno e) ENOENT); simpl; [|done].
    by destruct (run h (body None) w1).
Qed.

(** ** [_clear] *)

Lemma run_remove_if_exists {W : Type} (h : handler W) (w : W) (path : string) :
  let removed := h (Remove path) w in
  let rmtreed := h (Rmtree path) removed.2 in
  run h (remove_if_exists path) w =
  Execution (Returns tt)
    [Ev (Remove path) removed.1; Ev (Rmtree path) rmtreed.1] rmtreed.2.
Proof.
  unfold remove_if_exists. simpl.
  destruct (h (Remove path) w) as [[[]|e1] w1]; simpl;
    destruct (h (Rmtree path) w1) as [[[]|e2] w2]; simpl; done.
Qed.

Lemma run_clear_loop {W : Type} (h : handler W) (root : string)
    (names : list string) (w : W) :
  let r := run h (for_each names (fun path =>
             if Py.startswith path ".pyre" then Ret tt
             else remove_if_exists (Py.path_join root path))) w in
  outcome_of r = Returns tt /\
  calls (trace_of r) = flat_map (removal_calls root) names.
Proof.
  revert w. induction names as [|name names IH]; intros w; [done|].
  cbn [for_each flat_map]. rewrite run_bind. unfold removal_calls at 1.
  destruct (Py.startswith name ".pyre").
  - apply IH.
  - rewrite run_remove_if_exists. cbn [outcome_of trace_of world_of].
    destruct (IH (h (Rmtree (Py.path_join root name))
                    (h (Remove (Py.path_join root name)) w).2).2) as [Ho Hc].
    cbn zeta in *. split; [exact Ho|].
    unfold calls in *. rewrite map_app, Hc. done.
Qed.

Lemma startswith_cons (s p : string) (c : ascii) :
  Py.startswith s (String c p) = true -> exists s', s = String c s'.
Proof.
  unfold Py.startswith. destruct s as [|b s']; simpl; [done|].
  destruct (Ascii.ascii_dec c b) as [->|]; [eauto | done].
Qed.

Lemma startswith_other (s p q : string) (c d : ascii) :
  c <> d -> Py.startswith s (String c p) = true ->
  Py.startswith s (String d q) = false.
Proof.
  intros Hcd [s' ->]%startswith_cons. unfold Py.startswith. simpl.
  destruct (Ascii.ascii_dec d c); congruence.
Qed.

(** [posixpath.join] puts the same thing before every name that does not
    begin with a slash. *)
Lemma path_join_relative (a b : string) :
  Py.startswith b "/" = false ->
  Py.path_join a b
  = (a +:+ (if Py.is_empty_string a || Py.endswith a "/" then "" else "/")) +:+ b.
Proof.
  intros Hb. unfold Py.path_join. rewrite Hb.
  assert (Hassoc : forall x y z : string, x +:+ y +:+ z = (x +:+ y) +:+ z).
  { intros x y z. induction x as [|c x IH]; [done|].
    change (String c (x +:+ y +:+ z) = String c ((x +:+ y) +:+ z)). by rewrite IH. }
  destruct (Py.is_empty_string a || Py.endswith a "/").
  - assert (Hnil : a +:+ "" = a); [|by rewrite Hnil].
    induction a as [|c a IH]; [done|].
    change (String c (a +:+ "") = String c a). by rewrite IH.
  - apply Hassoc.
Qed.

(** Under a root whose name begins with a dot, only the entry [name] has the
    path [join root name], when [name] begins with [.pyre]. *)
Lemma path_join_protected (root' name other : string) :
  let root := String "."%char root' in
  Py.startswith name ".pyre" = true ->
  Py.path_join root other = Py.path_join root name ->
  other = name.
Proof.
  intros root Hname Heq.
  assert (Hrel : Py.startswith name "/" = false).
  { eapply (startswith_other _ _ _ "."%char "/"%char); [done | exact Hname]. }
  rewrite (path_join_relative root name Hrel) in Heq.
  destruct (Py.startswith other "/") eqn:Hother.
  - exfalso. unfold Py.path_join in Heq. rewrite Hother in Heq. subst other.
    by vm_compute in Hother.
  - rewrite (path_join_relative root other Hother) in Heq.
    by apply String.app_inj in Heq.
Qed.

Section Clear.

Variable pid : Z.

(** C10.  Once [os.listdir] has given the entries of the root, [_clear]
    returns, whatever the removals answer.  Its calls after the listing are,
    for each entry in turn, nothing when the name of the entry begins with
    [.pyre], and otherwise [os.remove] and then [shutil.rmtree] of the entry,
    both made whether or not the first one failed.  So no removal is ever
    asked for the path of a name that begins with [.pyre], the two files of
    pyre or another. *)
Theorem clear_spares_pyre_entries {W : Type} (h : handler W) (w : W)
    (self : SharedSourceDirectory) (names : list string) :
  let root := get_root pid self in
  (h (Listdir root) w).1 = Done names ->
  let r := run h (_clear pid self) w in
  outcome_of r = Returns tt /\
  calls (trace_of r) = Listdir root :: flat_map (removal_calls root) names /\
  forall name, Py.startswith name ".pyre" = true ->
    ~ In (Remove (Py.path_join root name)) (calls (trace_of r)) /\
    ~ In (Rmtree (Py.path_join root name)) (calls (trace_of r)).
Proof.
  intros root Hlist r.
  assert (Hr : outcome_of r = Returns tt /\
               calls (trace_of r) = Listdir root :: flat_map (removal_calls root) names).
  { subst r. unfold _clear. fold root. rewrite run_bind.
    unfold os_listdir, call_sys. cbn [run id outcome_of trace_of world_of].
    destruct (h (Listdir root) w) as [x w1]. cbn [fst snd] in *. subst x.
    cbn [outcome_of trace_of world_of app].
    destruct (run_clear_loop h root names w1) as [Ho Hc]. cbn zeta in *.
    split; [exact Ho|]. cbn [calls map]. by rewrite <- Hc. }
  destruct Hr as [Ho Hc]. split; [exact Ho|]. split; [exact Hc|].
  intros name Hname. rewrite Hc.
  assert (Hroot : exists root', root = String "."%char root').
  { subst root. unfold get_root. eexists. reflexivity. }
  destruct Hroot as [root' Hroot].
  assert (Hno : forall c, In c (flat_map (removal_calls root) names) ->
                c <> Remove (Py.path_join root name) /\
                c <> Rmtree (Py.path_join root name)).
  { intros c (other & _ & Hc')%in_flat_map. unfold removal_calls in Hc'.
    destruct (Py.startswith other ".pyre") eqn:Hother; [done|].
    assert (Hne : Py.path_join root other <> Py.path_join root name).
    { intros Heq. rewrite Hroot in Heq.
      apply path_join_protected in Heq; [congruence | exact Hname]. }
    destruct Hc' as [<- | [<- | []]]; split; congruence. }
  split; intros [Hin | Hin]; try discriminate;
    apply Hno in Hin; destruct Hin; congruence.
Qed.

End Clear.

Lemma clear_spares_pyre_entries_witness :
  calls (trace_of (run (on cluttered) (_clear 7 shared) []))
  = [Listdir ".pyre/shared_source_directory";
     Remove ".pyre/shared_source_directory/pkg";
     Rmtree ".pyre/shared_source_directory/pkg";
     Remove ".pyre/shared_source_directory/old.py";
     Rmtree ".pyre/shared_source_directory/old.py"].
Proof.
  exact (proj1 (proj2 (clear_spares_pyre_entries 7 (on cluttered) [] shared
                         [".pyre.lock"; ".pyre.source_directories"; "pkg"; "old.py"]
                         eq_refl))).
Defined.

(** ** The structure of the runs of [prepare] *)

Lemma runs_while_locked {A : Type} (lockfile : Z) (p : prog A) tr o :
  runs (while_locked lockfile p) tr o ->
  exists trb ob unlock,
    runs p trb ob /\ tr = trb ++ release lockfile ob unlock /\
    o = released_outcome ob unlock.
Proof.
  revert tr. induction p as [a|x|c k IH]; intros tr; simpl.
  - intros (l & tr' & -> & ([] & tr'' & -> & H)).
    exists [], (Returns a), l. split; [done|]. simpl.
    destruct l as [[]|e]; simpl in *.
    + by destruct H as [-> ->].
    + destruct (Z.eqb (errno e) ENOENT); by destruct H as [-> ->].
  - intros ([] & tr' & -> & H).
    exists [], (Raises x), (Done tt). split; [done|]. simpl.
    destruct (is_FileNotFoundError x); by destruct H as [-> ->].
  - intros (x & tr' & -> & H). apply IH in H.
    destruct H as (trb & ob & unlock & Hb & -> & ->).
    exists (Ev c x :: trb), ob, unlock. split; [|done]. by exists x, trb.
Qed.

Lemma runs_acquire_lock {A : Type} (path : string) (blocking : bool)
    (body : option Z -> prog A) tr o :
  runs (acquire_lock path blocking body) tr o ->
  (exists e, Z.eqb (errno e) ENOENT = false /\ o = Raises (OSError e) /\
     (tr = [Ev (Open path ModeWPlus) (Fails e)] \/
      exists lockfile,
        tr = [Ev (Open path ModeWPlus) (Done lockfile);
              Ev (Lockf lockfile (lock_command blocking)) (Fails e);
              Ev (Close lockfile) tt])) \/
  (exists held before trb after ob,
     locking path blocking held before after ob o /\
     runs (body held) trb ob /\ tr = before ++ trb ++ after).
Proof.
  unfold acquire_lock. fold (lock_command blocking). simpl.
  intros ([lockfile|e] & tr1 & -> & H).
  - destruct H as ([[]|e] & tr2 & -> & H).
    + apply runs_while_locked in H. destruct H as (trb & ob & unlock & Hb & -> & ->).
      right.
      exists (Some lockfile),
        [Ev (Open path ModeWPlus) (Done lockfile);
         Ev (Lockf lockfile (lock_command blocking)) (Done tt)],
        trb, (release lockfile ob unlock), ob.
      split; [apply locking_held | done].
    + simpl in H. destruct H as ([] & tr3 & -> & H).
      destruct (Z.eqb (errno e) ENOENT) eqn:He.
      * right.
        exists None,
          [Ev (Open path ModeWPlus) (Done lockfile);
           Ev (Lockf lockfile (lock_command blocking)) (Fails e);
           Ev (Close lockfile) tt], tr3, [], o.
        split; [by apply locking_no_lock|]. split; [done|].
        by rewrite app_nil_r.
      * destruct H as [-> ->]. left. exists e. eauto.
  - destruct (Z.eqb (errno e) ENOENT) eqn:He.
    + right. exists None, [Ev (Open path ModeWPlus) (Fails e)], tr1, [], o.
      split; [by apply locking_no_directory|]. split; [done|].
      by rewrite app_nil_r.
    + destruct H as [-> ->]. left. exists e. eauto.
Qed.

Lemma py_set_cases (v : json) :
  (exists tracked, py_set v = Ret tracked) \/
  (exists msg, py_set v = Throw (TypeError msg)).
Proof.
  destruct v as [|b|n|s|items|members]; simpl; eauto.
  destruct (forallb hashable items); eauto.
Qed.

Section Prepare.

Variable pid : Z.
Variable cwd : string.

Lemma runs_check_manifest (self : SharedSourceDirectory) tr o :
  runs (check_manifest pid self) tr o ->
  checked (manifest_path pid self) (_source_directories self) tr o.
Proof.
  unfold check_manifest, with_open, open_, call_sys, json_load, close, call, LOG.
  simpl. intros ([file|e] & tr1 & -> & H); simpl in H.
  - destruct H as (l & tr2 & -> & H).
    destruct l as [v|e| |]; simpl in H.
    + destruct (py_set_cases v) as [[tracked Hv]|[msg Hv]]; rewrite Hv in H; simpl in H.
      * destruct H as ([] & tr3 & -> & H).
        destruct (issubset (_source_directories self) tracked) eqn:Hsub; simpl in H.
        -- destruct H as ([] & tr4 & -> & -> & ->). by eapply checked_up_to_date.
        -- destruct H as [-> ->]. by eapply checked_stale.
      * destruct H as ([] & tr3 & -> & -> & ->). by apply checked_not_a_set.
    + destruct H as ([] & tr3 & -> & -> & ->). apply checked_not_read.
    + destruct H as ([] & tr3 & -> & -> & ->). apply checked_not_text.
    + destruct H as ([] & tr3 & -> & -> & ->). apply checked_not_json.
  - destruct H as [-> ->]. apply checked_not_opened.
Qed.

Lemma runs_critical_section (self : SharedSourceDirectory) tr o :
  runs (critical_section pid cwd self) tr o ->
  (checked (manifest_path pid self) (_source_directories self) tr (Returns true)
   /\ o = Returns tt) \/
  (exists tc trb,
     checked (manifest_path pid self) (_source_directories self) tc (Returns false)
     /\ runs (check_manifest pid self) tc (Returns false)
     /\ runs (rebuild pid cwd self) trb o /\ tr = tc ++ trb) \/
  (exists e,
     checked (manifest_path pid self) (_source_directories self) tr (Raises e)
     /\ o = Raises e).
Proof.
  unfold critical_section. intros H. apply runs_bind in H.
  destruct H as [(e & H & ->) | (up & t1 & t2 & H1 & H2 & ->)].
  - right. right. exists e. split; [by apply runs_check_manifest | done].
  - pose proof (runs_check_manifest _ _ _ H1) as Hc. destruct up.
    + destruct H2 as [-> ->]. left. by rewrite app_nil_r.
    + right. left. by exists t1, t2.
Qed.

Lemma runs_prepare (self : SharedSourceDirectory) tr o :
  runs (prepare pid cwd self) tr o ->
  exists made tr',
    tr = Ev (Log INFO ("Constructing shared directory `" +:+ get_root pid self +:+ "`")) tt
         :: Ev (Makedirs (get_root pid self)) made :: tr' /\
    runs (acquire_lock (lock_path pid self) true
            (fun _ => critical_section pid cwd self)) tr' o.
Proof.
  unfold prepare, LOG, call, os_makedirs, call_sys.
  cbn [bind try_except runs id].
  intros ([] & tr1 & -> & (made & tr2 & -> & H)).
  exists made, tr2. split; [done|].
  by destruct made as [[]|e].
Qed.

End Prepare.

(** ** A manifest that covers the request *)

Lemma set_contains_strings (cached : list string) (d : string) :
  set_contains (map JStr cached) d = true <-> In d cached.
Proof.
  unfold set_contains. rewrite existsb_exists. split.
  - intros (v & Hv & Heq). apply in_map_iff in Hv as (s & <- & Hs).
    apply String.eqb_eq in Heq. by subst.
  - intros Hd. exists (JStr d). split; [by apply in_map | apply String.eqb_refl].
Qed.

Lemma issubset_strings (dirs cached : list string) :
  issubset dirs (map JStr cached) = true <-> incl dirs cached.
Proof.
  unfold issubset. rewrite forallb_forall. unfold incl.
  split; intros H d Hd; apply set_contains_strings; auto.
Qed.

Lemma py_set_manifest (cached : list string) :
  py_set (manifest_of cached) = Ret (map JStr cached).
Proof.
  unfold manifest_of. simpl.
  assert (H : forallb hashable (map JStr cached) = true); [|by rewrite H].
  apply forallb_forall. intros v (s & <- & _)%in_map_iff. done.
Qed.

Section UpToDate.

Variable pid : Z.
Variable cwd : string.

Lemma up_to_date_runs (self : SharedSourceDirectory) (v : json)
    (tracked : list json) tr o :
  runs (prepare pid cwd self) tr o ->
  manifest_reading tr = Some (Read (Loaded v)) ->
  py_set v = Ret tracked ->
  issubset (_source_directories self) tracked = true ->
  Forall (fun c => is_rebuild_call c = false) (calls tr) /\
  (unlock_refused tr = false -> o = Returns tt).
Proof.
  intros Hruns Hread Hv Hsub.
  apply runs_prepare in Hruns as (made & tr' & -> & Hlock).
  apply runs_acquire_lock in Hlock
    as [(e & He & Ho & Hshape)
       | (held & before & trb & after & ob & Hlocking & Hbody & ->)].
  - destruct Hshape as [-> | [lockfile ->]]; simpl in Hread; discriminate.
  - apply runs_critical_section in Hbody
      as [[Hc ->] | [(tc & trr & Hc & _ & Hrb & ->) | (e & Hc & ->)]].
    + inversion Hc; subst; clear Hc.
      inversion Hlocking; subst; clear Hlocking; simpl in *.
      all: split; [repeat constructor|].
      1,2: done.
      destruct unlock as [[]|e']; [done | discriminate].
    + exfalso.
      inversion Hlocking; subst; clear Hlocking;
        inversion Hc; subst; clear Hc; simpl in Hread; congruence.
    + exfalso.
      inversion Hlocking; subst; clear Hlocking;
        inversion Hc; subst; clear Hc; simpl in Hread; congruence.
Qed.

(** C1.  On any system, when the manifest that [prepare] reads is the list
    [cached] and every requested directory is in [cached], the run makes no
    call of a rebuild: no call of the clear ([os.listdir], [os.remove],
    [shutil.rmtree]), none of the merge ([find], [realpath], [isfile],
    [stat]), no [os.symlink] or [os.unlink], and the manifest is neither
    opened for writing nor written.  And [prepare] returns, unless the unlock
    at the exit of the [with] fails. *)
Theorem prepare_up_to_date_is_a_no_op {W : Type} (h : handler W) (w : W)
    (self : SharedSourceDirectory) (cached : list string) :
  let r := run h (prepare pid cwd self) w in
  manifest_reading (trace_of r) = Some (Read (Loaded (manifest_of cached))) ->
  incl (_source_directories self) cached ->
  Forall (fun c => is_rebuild_call c = false) (calls (trace_of r)) /\
  (unlock_refused (trace_of r) = false -> outcome_of r = Returns tt).
Proof.
  intros r Hread Hsub.
  eapply up_to_date_runs; [apply run_runs | exact Hread | apply py_set_manifest |].
  by apply issubset_strings.
Qed.

End UpToDate.

Lemma prepare_up_to_date_is_a_no_op_witness :
  outcome_of (run (on prepared) (prepare 7 "/home/u" shared) []) = Returns tt.
Proof.
  apply (prepare_up_to_date_is_a_no_op 7 "/home/u" (on prepared) [] shared
           ["/src/a"; "/src/b"; "/src/c"]).
  - reflexivity.
  - intros d [<- | [<- | []]]; simpl; auto.
  - reflexivity.
Defined.

(** ** A manifest that cannot be read *)

Section Miss.

Variable pid : Z.
Variable cwd : string.

Lemma miss_runs (self : SharedSourceDirectory) (miss : reading) tr o :
  runs (prepare pid cwd self) tr o ->
  manifest_reading tr = Some miss -> is_miss miss = true ->
  exists prologue tried rebuilt after ob,
    tr = prologue ++ tried ++ rebuilt ++ after /\
    runs (check_manifest pid self) tried (Returns false) /\
    manifest_reading tried = Some miss /\
    runs (rebuild pid cwd self) rebuilt ob /\
    ((after = [] /\ o = ob) \/
     exists lockfile unlock,
       after = release lockfile ob unlock /\ o = released_outcome ob unlock).
Proof.
  intros Hruns Hread Hmiss.
  apply runs_prepare in Hruns as (made & tr' & -> & Hlock).
  apply runs_acquire_lock in Hlock
    as [(e & He & Ho & Hshape)
       | (held & before & trb & after & ob & Hlocking & Hbody & ->)].
  - destruct Hshape as [-> | [lockfile ->]]; simpl in Hread; discriminate.
  - apply runs_critical_section in Hbody
      as [[Hc ->] | [(tc & trr & Hc & Htried & Hrb & ->) | (e & Hc & ->)]].
    + exfalso.
      inversion Hlocking; subst; clear Hlocking;
        inversion Hc; subst; clear Hc; simpl in Hread;
        injection Hread as <-; discriminate.
    + exists (Ev (Log INFO ("Constructing shared directory `"
                            +:+ get_root pid self +:+ "`")) tt
              :: Ev (Makedirs (get_root pid self)) made :: before),
        tc, trr, after, ob.
      split; [by rewrite <- !app_assoc|]. split; [exact Htried|].
      split.
      * inversion Hlocking; subst; clear Hlocking;
          inversion Hc; subst; clear Hc; simpl in Hread |- *;
          solve [exact Hread | injection Hread as <-; discriminate].
      * split; [exact Hrb|].
        inversion Hlocking; subst; eauto.
    + exfalso.
      inversion Hlocking; subst; clear Hlocking;
        inversion Hc; subst; clear Hc; simpl in Hread;
        injection Hread as <-; discriminate.
Qed.

(** C5 (as amended).  On any system, when the manifest is absent or cannot be opened
    ([open] raises an [OSError]), cannot be read ([json.load] raises an
    [OSError]) or does not hold JSON ([json.load] raises
    [json.JSONDecodeError]), the [try] of [prepare] ends without an exception
    as a miss, whatever was requested, and the rebuild runs next.  [prepare]
    then ends as the rebuild ends, through the exit of [acquire_lock] when
    the lock is held: no exception of the reading reaches the caller. *)
Theorem manifest_miss_rebuilds {W : Type} (h : handler W) (w : W)
    (self : SharedSourceDirectory) (miss : reading) :
  let r := run h (prepare pid cwd self) w in
  manifest_reading (trace_of r) = Some miss -> is_miss miss = true ->
  exists prologue tried rebuilt after ob,
    trace_of r = prologue ++ tried ++ rebuilt ++ after /\
    runs (check_manifest pid self) tried (Returns false) /\
    manifest_reading tried = Some miss /\
    runs (rebuild pid cwd self) rebuilt ob /\
    ((after = [] /\ outcome_of r = ob) \/
     exists lockfile unlock,
       after = release lockfile ob unlock /\
       outcome_of r = released_outcome ob unlock).
Proof.
  intros r Hread Hmiss. eapply miss_runs; [apply run_runs | exact Hread | exact Hmiss].
Qed.

End Miss.

Lemma manifest_miss_rebuilds_witness :
  exists prologue tried rebuilt after ob,
    trace_of (run (on project) (prepare 7 "/home/u" shared) [])
    = prologue ++ tried ++ rebuilt ++ after /\
    runs (check_manifest 7 shared) tried (Returns false) /\
    manifest_reading tried
    = Some (NotOpened (OSErr ENOENT "No such file or directory")) /\
    runs (rebuild 7 "/home/u" shared) rebuilt ob /\
    ((after = [] /\
      outcome_of (run (on project) (prepare 7 "/home/u" shared) []) = ob) \/
     exists lockfile unlock,
       after = release lockfile ob unlock /\
       outcome_of (run (on project) (prepare 7 "/home/u" shared) [])
       = released_outcome ob unlock).
Proof.
  apply (manifest_miss_rebuilds 7 "/home/u" (on project) [] shared
           (NotOpened (OSErr ENOENT "No such file or directory")));
    reflexivity.
Defined.

(** C5 (the claim as written).  A manifest whose content does not decode:
    its bytes are not UTF-8.  [json.load] raises [UnicodeDecodeError], which
    is neither an [OSError] nor a [json.JSONDecodeError]: the [try] of
    [prepare] does not catch it, [prepare] raises it to its caller and no
    rebuild is made. *)
Lemma undecodable_manifest_reaches_the_caller :
  manifest_reading (trace_of (run (on garbled) (prepare 7 "/home/u" shared) []))
  = Some (Read LoadUnicodeDecodeError) /\
  outcome_of (run (on garbled) (prepare 7 "/home/u" shared) [])
  = Raises UnicodeDecodeError /\
  Forall (fun c => is_rebuild_call c = false)
    (calls (trace_of (run (on garbled) (prepare 7 "/home/u" shared) []))).
Proof.
  split; [reflexivity|]. split; [reflexivity|]. vm_compute. by repeat constructor.
Qed.

(** ** The calls a program can make *)

Lemma within_runs {A : Type} (P : syscall -> bool) (p : prog A) tr o :
  within P p -> runs p tr o -> Forall (fun c => P c = true) (calls tr).
Proof.
  revert tr. induction p as [a|e|c k IH]; intros tr; simpl.
  - intros _ [-> _]. constructor.
  - intros _ [-> _]. constructor.
  - intros [Hc Hk] (x & tr' & -> & H). constructor; [exact Hc|].
    by apply (IH x).
Qed.

Lemma within_weaken {A : Type} (P Q : syscall -> bool) (p : prog A) :
  (forall c, P c = true -> Q c = true) -> within P p -> within Q p.
Proof.
  intros HPQ. induction p as [a|e|c k IH]; simpl; [done | done |].
  intros [Hc Hk]. split; [by apply HPQ | intros x; by apply IH].
Qed.

Lemma within_bind {A B : Type} (P : syscall -> bool) (p : prog A) (f : A -> prog B) :
  within P p -> (forall a, within P (f a)) -> within P (bind p f).
Proof.
  intros Hp Hf. induction p as [a|e|c k IH]; simpl in *; [apply Hf | done |].
  destruct Hp as [Hc Hk]. split; [exact Hc | intros x; by apply IH].
Qed.

Lemma within_try_except {A : Type} (P : syscall -> bool) (p : prog A) matches handler :
  within P p -> (forall e, within P (handler e)) ->
  within P (try_except p matches handler).
Proof.
  intros Hp Hh. induction p as [a|e|c k IH]; simpl in *; [done | |].
  - destruct (matches e); [apply Hh | done].
  - destruct Hp as [Hc Hk]. split; [exact Hc | intros x; by apply IH].
Qed.

Lemma within_finally {A : Type} (P : syscall -> bool) (p : prog A) (q : prog unit) :
  within P p -> within P q -> within P (finally p q).
Proof.
  intros Hp Hq. induction p as [a|e|c k IH]; simpl in *.
  - by apply within_bind.
  - by apply within_bind.
  - destruct Hp as [Hc Hk]. split; [exact Hc | intros x; by apply IH].
Qed.

Lemma within_for_each {A : Type} (P : syscall -> bool) (l : list A)
    (body : A -> prog unit) :
  (forall x, within P (body x)) -> within P (for_each l body).
Proof.
  intros Hbody. induction l as [|x l IH]; simpl; [done|].
  by apply within_bind.
Qed.

Lemma within_for_fold {A S : Type} (P : syscall -> bool) (l : list A)
    (body : S -> A -> prog S) (s : S) :
  (forall s x, within P (body s x)) -> within P (for_fold l body s).
Proof.
  intros Hbody. revert s. induction l as [|x l IH]; intros s; simpl; [done|].
  apply within_bind; [apply Hbody | intros s'; apply IH].
Qed.

Lemma within_call_sys {A : Type} (P : syscall -> bool) (c : syscall)
    (cast : answer c -> sys A) :
  P c = true -> within P (call_sys c cast).
Proof. intros Hc. simpl. split; [exact Hc | intros x; by destruct (cast x)]. Qed.

Lemma within_call (P : syscall -> bool) (c : syscall) :
  P c = true -> within P (call c).
Proof. intros Hc. simpl. split; [exact Hc | done]. Qed.

Section Alphabet.

Variable pid : Z.
Variable cwd : string.

Lemma within_clear (self : SharedSourceDirectory) :
  within is_clear_call (_clear pid self).
Proof.
  unfold _clear. apply within_bind; [by apply within_call_sys|].
  intros names. apply within_for_each. intros name.
  destruct (Py.startswith name ".pyre"); [done|].
  unfold remove_if_exists.
  apply within_bind;
    [|intros _]; (apply within_try_except; [by apply within_call_sys | done]).
Qed.

Lemma within_find_python_paths (root : string) :
  within is_merge_call (_find_python_paths cwd root).
Proof.
  unfold _find_python_paths. apply within_try_except; [|done].
  simpl. split; [done|]. by intros [out| |code|e].
Qed.

Lemma within_is_empty (path : string) : within is_merge_call (is_empty path).
Proof.
  unfold is_empty. apply within_try_except; [|done].
  apply within_bind; [by apply within_call_sys | done].
Qed.

Lemma within_merge_path (source_directory : string) (all_paths : Dict.t)
    (path : string) :
  within is_merge_call (merge_path cwd source_directory all_paths path).
Proof.
  unfold merge_path. apply within_bind.
  - unfold os_path_relpath. by destruct (Py.is_empty_string path).
  - intros relative. destruct (Py.is_empty_string path); [done|].
    destruct (Dict.mem relative all_paths); [done|].
    apply within_try_except; [|done].
    apply within_bind; [by apply within_call_sys|]. intros absolute.
    apply within_bind; [by apply within_call|]. intros [|]; simpl; [|done].
    apply within_bind.
    + destruct (Py.endswith relative "__init__.py"); [apply within_is_empty | done].
    + by intros [|].
Qed.

Lemma within_merge_all (self : SharedSourceDirectory) :
  within is_merge_call (merge_all cwd self).
Proof.
  unfold merge_all, merge_from. apply within_for_fold.
  intros all_paths source_directory.
  unfold _merge_source_directory.
  apply within_bind; [apply within_find_python_paths|].
  intros paths. apply within_for_fold. intros s path. apply within_merge_path.
Qed.

End Alphabet.

(** The calls of the making of the links. *)
Lemma within_link_path (root : string) (entry : string * string) :
  within is_linking_call (link_path root entry).
Proof.
  destruct entry as [relative original]. unfold link_path.
  apply within_bind.
  - apply within_try_except; [by apply within_call_sys | done].
  - intros _. apply within_try_except; [by apply within_call_sys|].
    intros [e| | | | | | |]; try done.
    destruct (Z.eqb (errno e) EEXIST).
    + apply within_bind; [by apply within_call_sys|].
      intros _. by apply within_call_sys.
    + by apply within_call.
Qed.
Lemma link_path_calls_symlink (root : string) (entry : string * string) tr o :
  runs (link_path root entry) tr o ->
  In (Symlink entry.2 (Py.path_join root entry.1)) (calls tr).
Proof.
  destruct entry as [relative original].
  unfold link_path, os_makedirs, os_symlink, call_sys. simpl.
  intros (made & t1 & -> & H).
  destruct made as [[]|e]; simpl in H; destruct H as (s & t2 & -> & _);
    simpl; auto.
Qed.

Lemma links_made (root : string) (all_paths : Dict.t) tr :
  runs (for_each all_paths (link_path root)) tr (Returns tt) ->
  incl (links_of root all_paths) (calls tr).
Proof.
  revert tr. induction all_paths as [|entry all_paths IH]; intros tr H.
  - intros c [].
  - cbn [for_each] in H. apply runs_bind in H.
    destruct H as [(e & _ & He) | (u & t1 & t2 & H1 & H2 & ->)]; [done|].
    rewrite calls_app. intros c [<- | Hc].
    + apply in_or_app. left. by eapply link_path_calls_symlink.
    + apply in_or_app. right. by apply IH.
Qed.

Lemma split_at_first {A : Type} (f : A -> bool) (P Q t1 t2 : list A) (m e : A) :
  P ++ m :: Q = t1 ++ e :: t2 ->
  Forall (fun x => f x = false) P -> f e = true ->
  exists mid, t1 = P ++ mid /\ m :: Q = mid ++ e :: t2.
Proof.
  revert t1. induction P as [|x P IH]; intros t1 Heq HP He.
  - exists t1. done.
  - destruct t1 as [|y t1]; simpl in Heq.
    + injection Heq as -> _. apply Forall_inv in HP. congruence.
    + injection Heq as -> Heq. apply Forall_inv_tail in HP.
      destruct (IH t1 Heq HP He) as (mid & -> & Hmid). by exists mid.
Qed.

Section Order.

Variable pid : Z.
Variable cwd : string.

Lemma within_merge (self : SharedSourceDirectory) :
  within (fun c => is_merge_call c || is_linking_call c) (_merge pid cwd self).
Proof.
  unfold _merge. apply within_bind.
  - eapply within_weaken; [|apply within_merge_all].
    intros c ->. done.
  - intros all_paths. apply within_for_each. intros entry.
    eapply within_weaken; [|apply within_link_path].
    intros c ->. apply orb_true_r.
Qed.

Lemma clear_writes_no_manifest (self : SharedSourceDirectory) tr o :
  runs (_clear pid self) tr o ->
  Forall (fun c => is_manifest_write c = false) (calls tr).
Proof.
  intros H. pose proof (within_runs _ _ _ _ (within_clear pid self) H) as Hw.
  eapply Forall_impl; [exact Hw|].
  intros c Hc. simpl in Hc. by destruct c.
Qed.

Lemma merge_writes_no_manifest (self : SharedSourceDirectory) tr o :
  runs (_merge pid cwd self) tr o ->
  Forall (fun c => is_manifest_write c = false) (calls tr).
Proof.
  intros H. pose proof (within_runs _ _ _ _ (within_merge self) H) as Hw.
  eapply Forall_impl; [exact Hw|].
  intros c Hc. simpl in Hc. by destruct c.
Qed.

(** A run of the rebuild either never touches the manifest or is a clear
    that returned, a merge that returned and then the writing. *)
Lemma runs_rebuild (self : SharedSourceDirectory) tr o :
  runs (rebuild pid cwd self) tr o ->
  Forall (fun c => is_manifest_write c = false) (calls tr) \/
  exists cleared merged opened written,
    tr = Ev (Log INFO "Shared source directory is stale, updating...") tt
         :: cleared ++ merged ++ opened :: written /\
    runs (_clear pid self) cleared (Returns tt) /\
    runs (_merge pid cwd self) merged (Returns tt) /\
    is_manifest_write (call_of opened) = true /\
    Forall (fun c => is_work_call c = false) (calls written).
Proof.
  unfold rebuild, LOG at 1, call. cbn [bind runs].
  intros ([] & tr1 & -> & H).
  apply runs_bind in H.
  destruct H as [(e & Hcl & ->) | ([] & cleared & tr2 & Hcl & H & ->)].
  { left. rewrite calls_cons. constructor; [done|].
    by eapply clear_writes_no_manifest. }
  apply runs_bind in H.
  destruct H as [(e & Hm & ->) | ([] & merged & tr3 & Hm & H & ->)].
  { left. rewrite calls_cons, calls_app. constructor; [done|].
    apply Forall_app. split;
      [by eapply clear_writes_no_manifest | by eapply merge_writes_no_manifest]. }
  right. exists cleared, merged.
  unfold with_open, open_, json_dump, close, call, call_sys, LOG in H.
  cbn [bind runs id finally] in H.
  destruct H as (opened & tr4 & -> & H).
  exists (Ev (Open (manifest_path pid self) ModeW) opened), tr4.
  split; [done|]. split; [done|]. split; [done|]. split; [done|].
  destruct opened as [file|e]; cbn [bind runs finally] in H.
  - destruct H as (dumped & tr5 & -> & H).
    destruct dumped as [[]|e]; cbn [bind runs finally] in H.
    + destruct H as ([] & tr6 & -> & [] & tr7 & -> & -> & _).
      repeat constructor.
    + destruct H as ([] & tr6 & -> & -> & _). repeat constructor.
  - destruct H as [-> _]. constructor.
Qed.

End Order.

Lemma locking_calls {A : Type} (path : string) (blocking : bool) held before
    after (ob o : outcome A) :
  locking path blocking held before after ob o ->
  Forall (fun c => is_manifest_write c = false) (calls before) /\
  Forall (fun c => is_manifest_write c = false) (calls after) /\
  Forall (fun c => is_work_call c = false) (calls after).
Proof.
  intros H. inversion H; subst; clear H.
  1,2: repeat split; repeat constructor.
  destruct ob; repeat split; repeat constructor.
Qed.

Lemma checked_calls (manifest : string) (dirs : list string) tc oc :
  checked manifest dirs tc oc ->
  Forall (fun c => is_manifest_write c = false) (calls tc).
Proof. intros H. inversion H; subst; clear H; repeat constructor. Qed.

Lemma no_write_no_split (tr t1 t2 : list event) (e : event) :
  Forall (fun c => is_manifest_write c = false) (calls tr) ->
  tr = t1 ++ e :: t2 -> is_manifest_write (call_of e) = true -> False.
Proof.
  intros H -> He. rewrite calls_app, calls_cons in H.
  apply Forall_app in H as [_ H]. apply Forall_inv in H. congruence.
Qed.

Section LastStep.
Variable pid : Z.
Variable cwd : string.

Lemma manifest_last_runs (self : SharedSourceDirectory) tr o t1 e t2 :
  runs (prepare pid cwd self) tr o ->
  tr = t1 ++ e :: t2 -> is_manifest_write (call_of e) = true ->
  (exists before cleared merged linked opened all_paths,
     t1 = before ++ cleared ++ merged ++ linked ++ opened /\
     runs (_clear pid self) cleared (Returns tt) /\
     runs (merge_all cwd self) merged (Returns all_paths) /\
     runs (for_each all_paths (link_path (get_root pid self))) linked (Returns tt) /\
     incl (links_of (get_root pid self) all_paths) (calls linked) /\
     Forall (fun c => is_manifest_write c = false)
       (calls (before ++ cleared ++ merged ++ linked)) /\
     Forall (fun c => is_work_call c = false) (calls opened)) /\
  Forall (fun c => is_work_call c = false) (calls t2).
Proof.
  intros Hruns Hsplit He.
  apply runs_prepare in Hruns as (made & tr' & Htr & Hlock).
  apply runs_acquire_lock in Hlock
    as [(e' & _ & _ & Hshape)
       | (held & before & trb & after & ob & Hlocking & Hbody & ->)].
  { exfalso. eapply no_write_no_split; [|exact Hsplit|exact He].
    rewrite Htr. destruct Hshape as [-> | [lockfile ->]]; repeat constructor. }
  destruct (locking_calls _ _ _ _ _ _ _ Hlocking) as (Hbefore & Hafter & Hafter').
  assert (Hno : Forall (fun c => is_manifest_write c = false) (calls trb) -> False).
  { intros Htrb. eapply no_write_no_split; [|exact Hsplit|exact He].
    rewrite Htr, !calls_cons, !calls_app. repeat constructor.
    apply Forall_app. split; [done|]. apply Forall_app. done. }
  apply runs_critical_section in Hbody
    as [[Hc ->] | [(tc & trr & Hc & _ & Hrb & ->) | (e' & Hc & ->)]].
  { exfalso. apply Hno. by eapply checked_calls. }
  2: { exfalso. apply Hno. by eapply checked_calls. }
  apply checked_calls in Hc.
  apply runs_rebuild in Hrb
    as [Hrb | (cleared & merged & opened & written & -> & Hcl & Hm & Hop & Hw)].
  { exfalso. apply Hno. rewrite calls_app. by apply Forall_app. }
  clear Hno.
  unfold _merge in Hm. apply runs_bind in Hm.
  destruct Hm as [(e' & _ & He') | (all_paths & tm & tl & Hm & Hl & ->)]; [done|].
  pose proof (within_runs _ _ _ _ (within_merge_all cwd self) Hm) as Hwm.
  pose proof (within_runs _ _ _ _
                (within_for_each _ _ _ (within_link_path (get_root pid self))) Hl) as Hwl.
  set (prologue :=
         Ev (Log INFO ("Constructing shared directory `"
                       +:+ get_root pid self +:+ "`")) tt
         :: Ev (Makedirs (get_root pid self)) made
         :: before ++ tc
         ++ [Ev (Log INFO "Shared source directory is stale, updating...") tt]).
  assert (Hshape : tr = (prologue ++ cleared ++ tm ++ tl)
                        ++ opened :: (written ++ after)).
  { rewrite Htr. subst prologue. simpl. rewrite <- !app_assoc. simpl.
    by rewrite <- !app_assoc. }
  assert (Hquiet : Forall (fun c => is_manifest_write c = false)
                     (calls (prologue ++ cleared ++ tm ++ tl))).
  { subst prologue. rewrite !calls_app, !calls_cons, !calls_app.
    repeat constructor. repeat (apply Forall_app; split); try done.
    - repeat constructor.
    - by eapply clear_writes_no_manifest.
    - eapply Forall_impl; [exact Hwm|]. intros c Hc'. by destruct c.
    - eapply Forall_impl; [exact Hwl|]. intros c Hc'. by destruct c. }
  rewrite Hshape in Hsplit.
  apply (split_at_first (fun x => is_manifest_write (call_of x))) in Hsplit
    as (mid & -> & Hmid); [| |exact He].
  2: { unfold calls in Hquiet. by apply Forall_map in Hquiet. }
  assert (Hrest : Forall (fun c => is_work_call c = false) (calls (written ++ after))).
  { rewrite calls_app. by apply Forall_app. }
  destruct mid as [|opened' mid]; simpl in Hmid.
  - injection Hmid as <- <-. split; [|exact Hrest].
    exists prologue, cleared, tm, tl, [], all_paths.
    split; [by rewrite ?app_nil_r, <- ?app_assoc|].
    repeat split; try done.
    by apply links_made.
  - injection Hmid as <- Hmid. rewrite Hmid, calls_app, calls_cons in Hrest.
    apply Forall_app in Hrest as [Hmid' Ht2]. apply Forall_inv_tail in Ht2.
    split; [|exact Ht2].
    exists prologue, cleared, tm, tl, (opened :: mid), all_paths.
    split; [by rewrite <- ?app_assoc|].
    repeat split; try done.
    + by apply links_made.
    + rewrite calls_cons. constructor; [|exact Hmid'].
      destruct opened as [c x]. simpl in Hop |- *. by destruct c as [| ? [] | | | | | | | | | | | | | | ].
Qed.


(** C3.  On any system, take a run of [prepare] and any event [e] of it that
    writes the manifest (the [open] for writing, which empties the file, or
    the [json.dump]).  What comes before [e] then holds, in this order, a
    whole run of [_clear] that returned, a whole run of the first loop of
    [_merge] that returned the mapping [all_paths], and a whole run of its
    second loop on [all_paths] that returned, in which [os.symlink] was
    called for every entry of [all_paths]; nothing up to there writes the
    manifest; and after [e] no call of a clear, of a merge or of the making
    of links is made. *)
Theorem manifest_written_last {W : Type} (h : handler W) (w : W)
    (self : SharedSourceDirectory) (t1 : list event) (e : event)
    (t2 : list event) :
  let r := run h (prepare pid cwd self) w in
  trace_of r = t1 ++ e :: t2 -> is_manifest_write (call_of e) = true ->
  (exists before cleared merged linked opened all_paths,
     t1 = before ++ cleared ++ merged ++ linked ++ opened /\
     runs (_clear pid self) cleared (Returns tt) /\
     runs (merge_all cwd self) merged (Returns all_paths) /\
     runs (for_each all_paths (link_path (get_root pid self))) linked (Returns tt) /\
     incl (links_of (get_root pid self) all_paths) (calls linked) /\
     Forall (fun c => is_manifest_write c = false)
       (calls (before ++ cleared ++ merged ++ linked)) /\
     Forall (fun c => is_work_call c = false) (calls opened)) /\
  Forall (fun c => is_work_call c = false) (calls t2).
Proof.
  intros r Hsplit He.
  exact (manifest_last_runs self _ _ t1 e t2
           (run_runs h (prepare pid cwd self) w) Hsplit He).
Qed.

End LastStep.

Lemma manifest_written_last_witness :
  Forall (fun c => is_work_call c = false)
    (calls (skipn 28 (trace_of (run (on project) (prepare 7 "/home/u" shared) [])))).
Proof.
  exact (proj2 (manifest_written_last 7 "/home/u" (on project) [] shared
                  (firstn 27 (trace_of (run (on project) (prepare 7 "/home/u" shared) [])))
                  (Ev (Open ".pyre/shared_source_directory/.pyre.source_directories" ModeW)
                      (Done 3%Z))
                  (skipn 28 (trace_of (run (on project) (prepare 7 "/home/u" shared) [])))
                  eq_refl eq_refl)).
Defined.

(** ** The mapping of a merge *)

Lemma dict_mem_get (k : string) (d : Dict.t) :
  Dict.mem k d = false <-> Dict.get k d = None.
Proof. unfold Dict.mem. by destruct (Dict.get k d). Qed.

Lemma dict_get_keys (k : string) (d : Dict.t) :
  Dict.get k d = None <-> ~ In k (Dict.keys d).
Proof.
  induction d as [|[k' v] d IH]; simpl; [tauto|].
  destruct (String.eqb_spec k k') as [->|Hne].
  - split; [done | tauto].
  - rewrite IH. split; [intros H [Heq|Hin]; [congruence | tauto] | tauto].
Qed.

Lemma dict_set_fresh (k v : string) (d : Dict.t) :
  Dict.get k d = None -> Dict.set k v d = d ++ [(k, v)].
Proof.
  induction d as [|[k' v'] d IH]; simpl; [done|].
  destruct (String.eqb k k'); [done|]. intros H. by rewrite IH.
Qed.

Lemma dict_get_app (k : string) (d1 d2 : Dict.t) :
  Dict.get k (d1 ++ d2)
  = match Dict.get k d1 with Some v => Some v | None => Dict.get k d2 end.
Proof.
  induction d1 as [|[k' v'] d1 IH]; simpl; [done|].
  by destruct (String.eqb k k').
Qed.

(** A new key goes to the end, and the entries that were there stay. *)
Lemma dict_set_fresh_spec (k v : string) (d : Dict.t) :
  Dict.get k d = None -> NoDup (Dict.keys d) ->
  NoDup (Dict.keys (Dict.set k v d)) /\
  (forall k' v', Dict.get k' d = Some v' -> Dict.get k' (Dict.set k v d) = Some v') /\
  (forall k' v', Dict.get k' (Dict.set k v d) = Some v' ->
     Dict.get k' d = Some v' \/ (k' = k /\ v' = v)).
Proof.
  intros Hk Hd. rewrite (dict_set_fresh _ _ _ Hk). split; [|split].
  - unfold Dict.keys. rewrite map_app. simpl.
    apply NoDup_app. split; [exact Hd|]. split.
    + intros x Hx [<- | []]%list_elem_of_In. apply dict_get_keys in Hk.
      apply Hk. by apply list_elem_of_In.
    + apply NoDup_singleton.
  - intros k' v' H. by rewrite dict_get_app, H.
  - intros k' v'. rewrite dict_get_app. destruct (Dict.get k' d); [by left|].
    simpl. destruct (String.eqb_spec k' k); [|done]. intros [= <-]. by right.
Qed.

Section Merge.
Variable cwd : string.

Lemma runs_merge_path (source_directory : string) (all_paths : Dict.t)
    (path : string) tr o :
  runs (merge_path cwd source_directory all_paths path) tr o ->
  let relative := Py.relpath_nonempty cwd path source_directory in
  (path = EmptyString /\ tr = [] /\ o = Raises (ValueError "no path specified")) \/
  (path <> EmptyString /\
   (o = Returns all_paths \/
    (exists e, o = Raises (OSError e)) \/
    (exists absolute,
       Dict.get relative all_paths = None /\
       o = Returns (Dict.set relative absolute all_paths) /\
       acceptance path relative absolute tr))).
Proof.
  unfold merge_path, os_path_relpath.
  destruct path as [|c path']; simpl.
  { intros [-> ->]. by left. }
  set (path := String c path'). set (relative := Py.relpath_nonempty cwd path source_directory).
  intros H. right. split; [done|].
  destruct (Dict.mem relative all_paths) eqn:Hmem; simpl in H.
  { destruct H as [_ ->]. by left. }
  apply dict_mem_get in Hmem.
  destruct H as (real & t1 & -> & H).
  destruct real as [absolute|e]; simpl in H.
  2:{ destruct (Z.eqb (errno e) ENOENT); destruct H as [_ ->];
        [by left | right; left; by exists e]. }
  destruct H as (isfile & t2 & -> & H).
  destruct isfile; simpl in H; [|destruct H as [_ ->]; by left].
  destruct (Py.endswith relative "__init__.py") eqn:Hinit; simpl in H.
  - destruct H as (size & t3 & -> & H). destruct size as [size|e]; simpl in H.
    + revert H. destruct (Z.eqb_spec size 0) as [->|Hsize]; simpl;
        intros H; destruct H as [H1 H2]; subst t3 o.
      * by left.
      * right. right. exists absolute. repeat split; [done|]. by apply accepted_init.
    + revert H. simpl. destruct (Z.eqb (errno e) ENOENT) eqn:He; simpl;
        rewrite ?He; intros H; destruct H as [H1 H2]; subst t3 o.
      * right. right. exists absolute. repeat split; [done|].
        apply accepted_vanished; [done | by apply Z.eqb_eq].
      * right. left. by exists e.
  - destruct H as [-> ->]. right. right. exists absolute.
    repeat split; [done|]. by apply accepted_file.
Qed.

Lemma accepted_in_app (before after tr : list event)
    (source_directory relative absolute : string) :
  accepted_in cwd tr source_directory relative absolute ->
  accepted_in cwd (before ++ tr ++ after) source_directory relative absolute.
Proof.
  intros (path & b & acc & a & -> & Hpath & Hrel & Hacc).
  exists path, (before ++ b), acc, (a ++ after).
  split; [by rewrite <- !app_assoc | done].
Qed.

Lemma paths_loop (source_directory : string) (paths : list string)
    (init m : Dict.t) tr :
  runs (for_fold paths (merge_path cwd source_directory) init) tr (Returns m) ->
  NoDup (Dict.keys init) ->
  NoDup (Dict.keys m) /\
  (forall k v, Dict.get k init = Some v -> Dict.get k m = Some v) /\
  (forall k v, Dict.get k m = Some v ->
     Dict.get k init = Some v \/ accepted_in cwd tr source_directory k v).
Proof.
  revert init tr. induction paths as [|path paths IH]; intros init tr H Hinit.
  - destruct H as [_ [= <-]]. auto.
  - cbn [for_fold] in H. apply runs_bind in H.
    destruct H as [(e & _ & He) | (ap & t1 & t2 & H1 & H2 & ->)]; [done|].
    apply runs_merge_path in H1.
    destruct H1 as [(_ & _ & Ho) | (Hpath & [Ho | [(e & Ho) | (absolute & Hfresh & Ho & Hacc)]])];
      try done.
    + injection Ho as ->. destruct (IH _ _ H2 Hinit) as (Hm & Hkeep & Hnew).
      split; [done|]. split; [done|].
      intros k v Hk. destruct (Hnew k v Hk) as [?|Hin]; [by left|].
      right. by apply (accepted_in_app t1 []) in Hin; rewrite app_nil_r in Hin.
    + injection Ho as ->.
      destruct (dict_set_fresh_spec _ absolute _ Hfresh Hinit) as (Hset & Hold & Hadd).
      destruct (IH _ _ H2 Hset) as (Hm & Hkeep & Hnew).
      split; [done|]. split; [by auto|].
      intros k v Hk. destruct (Hnew k v Hk) as [Hk'|Hin].
      * destruct (Hadd k v Hk') as [?|[-> ->]]; [by left|].
        right. exists path, [], t1, t2. done.
      * right. by apply (accepted_in_app t1 []) in Hin; rewrite app_nil_r in Hin.
Qed.

Lemma directory_loop (source_directory : string) (init m : Dict.t) tr :
  runs (_merge_source_directory cwd source_directory init) tr (Returns m) ->
  NoDup (Dict.keys init) ->
  NoDup (Dict.keys m) /\
  (forall k v, Dict.get k init = Some v -> Dict.get k m = Some v) /\
  (forall k v, Dict.get k m = Some v ->
     Dict.get k init = Some v \/ accepted_in cwd tr source_directory k v).
Proof.
  unfold _merge_source_directory. intros H Hinit. apply runs_bind in H.
  destruct H as [(e & _ & He) | (paths & t1 & t2 & H1 & H2 & ->)]; [done|].
  destruct (paths_loop _ _ _ _ _ H2 Hinit) as (Hm & Hkeep & Hnew).
  split; [done|]. split; [done|].
  intros k v Hk. destruct (Hnew k v Hk) as [?|Hin]; [by left|].
  right. by apply (accepted_in_app t1 []) in Hin; rewrite app_nil_r in Hin.
Qed.

Lemma directories_loop (dirs : list string) (init m : Dict.t) tr :
  runs (merge_from cwd dirs init) tr (Returns m) ->
  NoDup (Dict.keys init) ->
  NoDup (Dict.keys m) /\
  (forall k v, Dict.get k init = Some v -> Dict.get k m = Some v) /\
  (forall k v, Dict.get k m = Some v ->
     Dict.get k init = Some v \/
     exists source_directory,
       In source_directory dirs /\ accepted_in cwd tr source_directory k v).
Proof.
  unfold merge_from.
  revert init tr. induction dirs as [|sd dirs IH]; intros init tr H Hinit.
  - destruct H as [_ [= <-]]. auto.
  - cbn [for_fold] in H. apply runs_bind in H.
    destruct H as [(e & _ & He) | (ap & t1 & t2 & H1 & H2 & ->)]; [done|].
    destruct (directory_loop _ _ _ _ H1 Hinit) as (Hap & Hkeep1 & Hnew1).
    destruct (IH _ _ H2 Hap) as (Hm & Hkeep & Hnew).
    split; [done|]. split; [by auto|].
    intros k v Hk. destruct (Hnew k v Hk) as [Hk'|(sd' & Hsd & Hin)].
    + destruct (Hnew1 k v Hk') as [?|Hin]; [by left|].
      right. exists sd. split; [by left|].
      by apply (accepted_in_app [] t2) in Hin.
    + right. exists sd'. split; [by right|].
      by apply (accepted_in_app t1 []) in Hin; rewrite app_nil_r in Hin.
Qed.

Lemma candidate_keeps (source_directory path : string) (all_paths m : Dict.t) tr :
  runs (merge_path cwd source_directory all_paths path) tr (Returns m) ->
  forall k v, Dict.get k all_paths = Some v -> Dict.get k m = Some v.
Proof.
  intros H k v Hk. apply runs_merge_path in H.
  destruct H as [(_ & _ & Ho) | (_ & [Ho | [(e & Ho) | (absolute & Hfresh & Ho & _)]])];
    try done.
  - by injection Ho as ->.
  - injection Ho as ->. rewrite (dict_set_fresh _ _ _ Hfresh), dict_get_app.
    by rewrite Hk.
Qed.

(** C6.  Take any system and the first loop of [_merge] on the directories
    [dirs], started with a dict [init] without repeated keys (the empty dict
    in [_merge]; for one directory the loop is one call of
    [_merge_source_directory]).  When the loop returns the mapping [m]: no
    key of [m] is repeated; every entry of [init] is in [m] with the value it
    had, so that an entry, once made, is never replaced by a candidate of a
    later directory; and every other entry of [m] was accepted in the run for
    a candidate of one of the directories: [realpath] gave its value,
    [isfile] answered that the value is a regular file, and for a key that
    ends in [__init__.py] the file was not seen empty.  Within a directory,
    the turn of the loop for one candidate keeps every entry as well. *)
Theorem merge_first_accepted_wins {W : Type} (h : handler W) (w : W)
    (dirs : list string) (init m : Dict.t) :
  let r := run h (merge_from cwd dirs init) w in
  outcome_of r = Returns m -> NoDup (Dict.keys init) ->
  NoDup (Dict.keys m) /\
  (forall k v, Dict.get k init = Some v -> Dict.get k m = Some v) /\
  (forall k v, Dict.get k m = Some v ->
     Dict.get k init = Some v \/
     exists source_directory,
       In source_directory dirs /\
       accepted_in cwd (trace_of r) source_directory k v) /\
  (forall w' source_directory path all_paths m',
     outcome_of (run h (merge_path cwd source_directory all_paths path) w')
     = Returns m' ->
     forall k v, Dict.get k all_paths = Some v -> Dict.get k m' = Some v).
Proof.
  intros r Ho Hinit.
  pose proof (run_runs h (merge_from cwd dirs init) w) as Hruns.
  fold r in Hruns. rewrite Ho in Hruns.
  destruct (directories_loop _ _ _ _ Hruns Hinit) as (Hm & Hkeep & Hnew).
  repeat split; [done | done | done |].
  intros w' sd path ap m' Ho'.
  pose proof (run_runs h (merge_path cwd sd ap path) w') as Hruns'.
  rewrite Ho' in Hruns'. by eapply candidate_keeps.
Qed.

End Merge.

Lemma merge_first_accepted_wins_witness :
  NoDup (Dict.keys [("pkg/mod.py", "/src/a/pkg/mod.py");
                    ("pkg/__init__.py", "/src/b/pkg/__init__.py");
                    ("pkg/other.py", "/src/b/pkg/other.py")]).
Proof.
  exact (proj1 (merge_first_accepted_wins "/home/u" (on project) []
                  ["/src/a"; "/src/b"] [] _ eq_refl (NoDup_nil_2 (A:=string)))).
Defined.
(** ** Two directories with the same package *)

Lemma run_static {W A : Type} (h : handler W) (a : answers) (p : prog A) (w : W) :
  within is_merge_call p -> answers_merge_as h a ->
  outcome_of (run h p w) = outcome_of (run (always a) p tt).
Proof.
  intros Hp Hh. revert w. induction p as [x|e|c k IH]; intros w; simpl; [done | done |].
  destruct Hp as [Hc Hk]. specialize (Hh c w Hc).
  destruct (h c w) as [x w']. simpl in *. subst x. by apply IH.
Qed.

Lemma static_world {A : Type} (a : answers) (p : prog A) :
  world_of (run (always a) p tt) = tt.
Proof. by destruct (world_of _). Qed.

Lemma static_bind {A B : Type} (a : answers) (p : prog A) (f : A -> prog B) :
  outcome_of (run (always a) (bind p f) tt)
  = match outcome_of (run (always a) p tt) with
    | Returns x => outcome_of (run (always a) (f x) tt)
    | Raises e => Raises e
    end.
Proof.
  rewrite run_bind. simpl. rewrite static_world.
  by destruct (outcome_of (run (always a) p tt)).
Qed.

Section Static.
Variable cwd : string.
Variable a : answers.

(** What one turn of the loop of [_merge_source_directory] does to the dict
    on such a system, for a path whose [realpath] is [absolute]. *)
Lemma static_merge_path (source_directory path absolute : string)
    (all_paths : Dict.t) :
  path <> EmptyString ->
  a (Realpath path) = Done absolute ->
  let relative := Py.relpath_nonempty cwd path source_directory in
  outcome_of (run (always a) (merge_path cwd source_directory all_paths path) tt)
  = if Dict.mem relative all_paths then Returns all_paths
    else if negb (a (Isfile absolute)) then Returns all_paths
    else if Py.endswith relative "__init__.py" then
      match a (StatSize absolute) with
      | Done size =>
          if Z.eqb size 0 then Returns all_paths
          else Returns (Dict.set relative absolute all_paths)
      | Fails e =>
          if Z.eqb (errno e) ENOENT
          then Returns (Dict.set relative absolute all_paths)
          else Raises (OSError e)
      end
    else Returns (Dict.set relative absolute all_paths).
Proof.
  intros Hpath Hreal relative. unfold merge_path, os_path_relpath.
  destruct path as [|c path']; [done|]. simpl.
  fold relative. destruct (Dict.mem relative all_paths); [done|]. simpl.
  unfold always at 1. simpl. rewrite Hreal. simpl.
  destruct (a (Isfile absolute)); simpl; [|done].
  destruct (Py.endswith relative "__init__.py"); simpl; [|done].
  destruct (a (StatSize absolute)) as [size|e]; simpl.
  - by destruct (Z.eqb size 0).
  - destruct (Z.eqb (errno e) ENOENT) eqn:He; simpl; by rewrite ?He.
Qed.

Lemma static_merge_source_directory (source_directory out : string)
    (all_paths : Dict.t) :
  a (find_files (Py.abspath cwd source_directory)) = ProcOutput out ->
  outcome_of (run (always a) (_merge_source_directory cwd source_directory all_paths) tt)
  = outcome_of (run (always a)
                  (for_fold (Py.split_on Py.newline (Py.strip out))
                     (merge_path cwd source_directory) all_paths) tt).
Proof.
  intros Hfind. unfold _merge_source_directory. rewrite static_bind.
  rewrite run_find_python_paths. simpl. unfold always at 1. simpl.
  by rewrite Hfind.
Qed.
End Static.

Lemma endswith_differ (s1 s2 p : string) :
  Py.endswith s1 p = true -> Py.endswith s2 p = false ->
  String.eqb s1 s2 = false /\ String.eqb s2 s1 = false.
Proof.
  intros H1 H2. split; apply String.eqb_neq; congruence.
Qed.

Section Conflict.

Variable cwd : string.
Variable a : answers.

(** The directories, what [find] prints for each, the two candidates of
    each, and the keys they get. *)
Variables A B out_A out_B : string.
Variables init_A mod_A init_B other_B : string.
Variables k_init k_mod k_other : string.

Hypothesis find_A : a (find_files (Py.abspath cwd A)) = ProcOutput out_A.
Hypothesis find_B : a (find_files (Py.abspath cwd B)) = ProcOutput out_B.
Hypothesis lines_A :
  Permutation (Py.split_on Py.newline (Py.strip out_A)) [init_A; mod_A].
Hypothesis lines_B :
  Permutation (Py.split_on Py.newline (Py.strip out_B)) [init_B; other_B].

Hypothesis init_A_path : init_A <> EmptyString.
Hypothesis mod_A_path : mod_A <> EmptyString.
Hypothesis init_B_path : init_B <> EmptyString.
Hypothesis other_B_path : other_B <> EmptyString.

Hypothesis init_A_key : Py.relpath_nonempty cwd init_A A = k_init.
Hypothesis init_B_key : Py.relpath_nonempty cwd init_B B = k_init.
Hypothesis mod_A_key : Py.relpath_nonempty cwd mod_A A = k_mod.
Hypothesis other_B_key : Py.relpath_nonempty cwd other_B B = k_other.

Hypothesis init_is_initializer : Py.endswith k_init "__init__.py" = true.
Hypothesis mod_is_not : Py.endswith k_mod "__init__.py" = false.
Hypothesis other_is_not : Py.endswith k_other "__init__.py" = false.
Hypothesis mod_other : k_mod <> k_other.

(** The files the four paths stand for. *)
Variables file_init_A file_mod_A file_init_B file_other_B : string.
Hypothesis init_A_real : a (Realpath init_A) = Done file_init_A.
Hypothesis mod_A_real : a (Realpath mod_A) = Done file_mod_A.
Hypothesis init_B_real : a (Realpath init_B) = Done file_init_B.
Hypothesis other_B_real : a (Realpath other_B) = Done file_other_B.

(** All four are regular files; the initializer of [A] is empty, the one of
    [B] is not. *)
Hypothesis init_A_file : a (Isfile file_init_A) = true.
Hypothesis mod_A_file : a (Isfile file_mod_A) = true.
Hypothesis init_B_file : a (Isfile file_init_B) = true.
Hypothesis other_B_file : a (Isfile file_other_B) = true.
Variable size_B : Z.
Hypothesis init_A_empty : a (StatSize file_init_A) = Done 0%Z.
Hypothesis init_B_size : a (StatSize file_init_B) = Done size_B.
Hypothesis init_B_not_empty : size_B <> 0%Z.

Lemma conflict_static (dirs : list string) :
  Permutation dirs [A; B] ->
  exists m, outcome_of (run (always a) (merge_from cwd dirs []) tt) = Returns m /\
            Dict.get k_init m = Some file_init_B /\
            Dict.get k_mod m = Some file_mod_A /\
            Dict.get k_other m = Some file_other_B /\
            Permutation (Dict.keys m) [k_init; k_mod; k_other].
Proof using All.
  intros Hdirs.
  destruct (endswith_differ _ _ _ init_is_initializer mod_is_not) as [Him Hmi].
  destruct (endswith_differ _ _ _ init_is_initializer other_is_not) as [Hio Hoi].
  assert (Hmo : String.eqb k_mod k_other = false) by by apply String.eqb_neq.
  assert (Hom : String.eqb k_other k_mod = false) by by apply String.eqb_neq, not_eq_sym.
  assert (HsB : Z.eqb size_B 0 = false) by by apply Z.eqb_neq.
  apply Permutation_sym, Permutation_length_2_inv in Hdirs.
  apply Permutation_sym, Permutation_length_2_inv in lines_A.
  apply Permutation_sym, Permutation_length_2_inv in lines_B.
  unfold merge_from.
  destruct Hdirs as [-> | ->]; destruct lines_A as [HA | HA]; destruct lines_B as [HB | HB].
  all: cbn [for_fold];
    repeat first
      [ rewrite static_bind
      | rewrite (static_merge_source_directory cwd a A out_A _ find_A)
      | rewrite (static_merge_source_directory cwd a B out_B _ find_B)
      | rewrite HA | rewrite HB
      | rewrite (static_merge_path cwd a _ _ _ _ init_A_path init_A_real)
      | rewrite (static_merge_path cwd a _ _ _ _ mod_A_path mod_A_real)
      | rewrite (static_merge_path cwd a _ _ _ _ init_B_path init_B_real)
      | rewrite (static_merge_path cwd a _ _ _ _ other_B_path other_B_real)
      | rewrite init_A_key | rewrite init_B_key | rewrite mod_A_key | rewrite other_B_key
      | rewrite init_A_file | rewrite mod_A_file | rewrite init_B_file | rewrite other_B_file
      | rewrite init_A_empty | rewrite init_B_size
      | rewrite init_is_initializer | rewrite mod_is_not | rewrite other_is_not
      | rewrite Him | rewrite Hmi | rewrite Hio | rewrite Hoi | rewrite Hmo | rewrite Hom
      | rewrite HsB | rewrite String.eqb_refl
      | progress unfold Dict.mem
      | progress cbn [for_fold run outcome_of Dict.get Dict.set negb Z.eqb] ].
  all: eexists; split; [reflexivity|];
    cbn [Dict.get Dict.keys map fst];
    rewrite ?String.eqb_refl, ?Him, ?Hmi, ?Hio, ?Hoi, ?Hmo, ?Hom, ?String.eqb_refl;
    repeat split.
  all: try reflexivity.
  all: try (solve [eauto 5 using perm_swap, perm_skip, perm_trans, Permutation_refl]).
Qed.

(** C2.  Two source directories [A] and [B]: [find] lists in [A] an empty
    package initializer and a module, in [B] a non-empty initializer with the
    same relative path and another module.  Whatever the order in which the
    two directories are merged, and whatever the order in which [find] lists
    the files of each, the merge returns a mapping with exactly three keys:
    the initializer maps to the file of [B], the module of [A] to the file of
    [A], the module of [B] to the file of [B]. *)
Theorem merge_conflict_resolved {W : Type} (h : handler W) (w : W)
    (dirs : list string) (isolate : bool) :
  answers_merge_as h a ->
  Permutation dirs [A; B] ->
  exists m,
    outcome_of (run h (merge_all cwd {| _source_directories := dirs;
                                        _isolate := isolate |}) w)
    = Returns m /\
    Dict.get k_init m = Some file_init_B /\
    Dict.get k_mod m = Some file_mod_A /\
    Dict.get k_other m = Some file_other_B /\
    Permutation (Dict.keys m) [k_init; k_mod; k_other].
Proof using All.
  intros Hh Hdirs.
  rewrite (run_static h a) by (apply within_merge_all || done).
  by apply conflict_static.
Qed.

End Conflict.

Lemma on_answers_merge_as (a : answers) : answers_merge_as (on a) a.
Proof. intros c w Hc. by destruct c. Qed.

Lemma merge_conflict_resolved_witness :
  exists m,
    outcome_of (run (on project) (merge_all "/home/u" shared) []) = Returns m /\
    Dict.get "pkg/__init__.py" m = Some "/src/b/pkg/__init__.py" /\
    Dict.get "pkg/mod.py" m = Some "/src/a/pkg/mod.py" /\
    Dict.get "pkg/other.py" m = Some "/src/b/pkg/other.py" /\
    Permutation (Dict.keys m) ["pkg/__init__.py"; "pkg/mod.py"; "pkg/other.py"].
Proof.
  eapply (merge_conflict_resolved "/home/u" project "/src/a" "/src/b"
            ("/src/a/pkg/__init__.py" +:+ nl +:+ "/src/a/pkg/mod.py" +:+ nl)
            ("/src/b/pkg/__init__.py" +:+ nl +:+ "/src/b/pkg/other.py" +:+ nl)
            "/src/a/pkg/__init__.py" "/src/a/pkg/mod.py"
            "/src/b/pkg/__init__.py" "/src/b/pkg/other.py"
            "pkg/__init__.py" "pkg/mod.py" "pkg/other.py").
  all: try reflexivity.
  all: try (apply on_answers_merge_as).
  all: done.
Defined.
(** ** What [prepare] absorbs and what it lets through *)

Lemma escapes_app (t1 t2 : list event) :
  escapes (t1 ++ t2) = false -> escapes t1 = false /\ escapes t2 = false.
Proof.
  induction t1 as [|e t1 IH]; simpl; [done|].
  intros H. apply orb_false_iff in H. destruct H as [H H3].
  apply orb_false_iff in H. destruct H as [H1 H2].
  apply IH in H3. destruct H3 as [H3 H4]. rewrite H1, H3, H4.
  split; [|done]. rewrite orb_false_r. simpl.
  destruct t1 as [|e' t1]; [by destruct e as [[] ?]|done].
Qed.

Lemma escapes_cons (e : event) (tr : list event) :
  escapes (e :: tr) = false -> unguarded e = false /\ escapes tr = false.
Proof.
  simpl. intros H. apply orb_false_iff in H. destruct H as [H H2].
  apply orb_false_iff in H. by destruct H as [H1 _].
Qed.

Lemma retried_app src dst t1 t2 : retried src dst t1 = true -> retried src dst (t1 ++ t2) = true.
Proof.
  destruct t1 as [|[c r] [|[c' r'] t1]]; simpl; try done.
  by destruct c; try done; destruct r.
Qed.

Lemma logged_app e t1 t2 : logged e t1 = true -> logged e (t1 ++ t2) = true.
Proof. by destruct t1 as [|[c r] t1]. Qed.

Lemma link_failures_handled_app t1 t2 :
  link_failures_handled t1 = true -> link_failures_handled t2 = true ->
  link_failures_handled (t1 ++ t2) = true.
Proof.
  intros H1 H2. induction t1 as [|e t1 IH]; simpl in *; [done|].
  apply andb_true_iff in H1. destruct H1 as [H1 H3].
  rewrite (IH H3), andb_true_r.
  destruct e as [c r]. destruct c; try done. destruct r as [|e]; try done.
  destruct (Z.eqb (errno e) EEXIST); [by apply retried_app | by apply logged_app].
Qed.

Lemma listing_failed_app (t1 t2 : list event) :
  listing_failed (t1 ++ t2) = listing_failed t1 || listing_failed t2.
Proof. apply existsb_app. Qed.

Lemma absorbs_bind {A B : Type} (p : prog A) (f : A -> prog B) :
  absorbs p -> (forall a, absorbs (f a)) -> absorbs (bind p f).
Proof.
  intros Hp Hf tr o H Hclean. apply runs_bind in H.
  destruct H as [(e & H & ->) | (a & t1 & t2 & H1 & H2 & ->)].
  - exact (Hp _ _ H Hclean).
  - apply escapes_app in Hclean. destruct Hclean as [Hc1 Hc2].
    destruct (Hp _ _ H1 Hc1) as [Hl1 Hs1]. destruct (Hf _ _ _ H2 Hc2) as [Hl2 Hs2].
    split; [by apply link_failures_handled_app|].
    simpl in Hs1. rewrite listing_failed_app, Hs1. done.
Qed.

Lemma absorbs_for_each {A : Type} (l : list A) (body : A -> prog unit) :
  (forall x, absorbs (body x)) -> absorbs (for_each l body).
Proof.
  intros Hbody. induction l as [|x l IH]; simpl.
  - by intros tr o [-> ->] _.
  - apply absorbs_bind; [apply Hbody | by intros _].
Qed.

Lemma absorbs_for_fold {A S : Type} (l : list A) (body : S -> A -> prog S) (s : S) :
  (forall s x, In x l -> absorbs (body s x)) -> absorbs (for_fold l body s).
Proof.
  revert s. induction l as [|x l IH]; intros s Hbody; simpl.
  - by intros tr o [-> ->] _.
  - apply absorbs_bind; [apply Hbody; by left|].
    intros s'. apply IH. intros s'' y Hy. apply Hbody. by right.
Qed.

(** [try: <one call>  except OSError: pass] *)
Lemma absorbs_swallowed (c : syscall) (cast : answer c -> sys unit) :
  (forall x, settled [Ev c x] (Returns tt)) ->
  absorbs (try_except (call_sys c cast) is_OSError (fun _ => Ret tt)).
Proof.
  intros Hc tr o H _. unfold call_sys in H. simpl in H.
  destruct H as (x & t & -> & H).
  destruct (cast x) as [[]|e]; simpl in H; destruct H as [-> ->]; apply Hc.
Qed.

Lemma absorbs_LOG (lvl : level) (msg : string) : absorbs (LOG lvl msg).
Proof. intros tr o H _. simpl in H. by destruct H as (x & t & -> & -> & ->). Qed.

Lemma absorbs_remove_if_exists (path : string) : absorbs (remove_if_exists path).
Proof.
  unfold remove_if_exists. apply absorbs_bind; [by apply absorbs_swallowed|].
  intros _. by apply absorbs_swallowed.
Qed.

Lemma absorbs_is_empty (path : string) : absorbs (is_empty path).
Proof.
  intros tr o H Hc. unfold is_empty, os_stat_size, call_sys in H. simpl in H.
  destruct H as (x & t & -> & H). destruct x as [size|e]; simpl in H.
  - by destruct H as [-> ->].
  - apply escapes_cons in Hc. destruct Hc as [Hc _]. apply negb_false_iff in Hc.
    rewrite Hc in H. by destruct H as [-> ->].
Qed.

Lemma absorbs_link_path (root : string) (entry : string * string) :
  absorbs (link_path root entry).
Proof.
  destruct entry as [relative original]. unfold link_path.
  apply absorbs_bind; [by apply absorbs_swallowed|]. intros _.
  intros tr o H Hc. unfold os_symlink, os_unlink, call_sys, LOG, call in H.
  simpl in H. destruct H as (x & t & -> & H). destruct x as [[]|e]; simpl in H.
  - by destruct H as [-> ->].
  - destruct (Z.eqb (errno e) EEXIST) eqn:He; simpl in H.
    + destruct H as (u & t1 & -> & H). destruct u as [[]|eu]; simpl in H; [|done].
      destruct H as (s & t2 & -> & H).
      destruct s as [[]|es]; destruct H as [-> ->]; [|done].
      split; [|done]. simpl. by rewrite He, !String.eqb_refl.
    + destruct H as (l & t1 & -> & -> & ->).
      split; [|done]. simpl. by rewrite He, String.eqb_refl.
Qed.

Section Absorbed.

Variable pid : Z.
Variable cwd : string.

Lemma absorbs_clear (self : SharedSourceDirectory) : absorbs (_clear pid self).
Proof.
  unfold _clear. apply absorbs_bind.
  - intros tr o H Hc. unfold os_listdir, call_sys in H. simpl in H.
    destruct H as (x & t & -> & H). by destruct x; destruct H as [-> ->].
  - intros names. apply absorbs_for_each. intros path.
    destruct (Py.startswith path ".pyre"); [by intros tr o [-> ->] _|].
    apply absorbs_remove_if_exists.
Qed.

Lemma absorbs_merge_path (source_directory path : string) (all_paths : Dict.t) :
  Py.is_empty_string path = false ->
  absorbs (merge_path cwd source_directory all_paths path).
Proof.
  intros Hpath. unfold merge_path, os_path_relpath. rewrite Hpath. simpl.
  destruct (Dict.mem _ all_paths); [by intros tr o [-> ->] _|].
  intros tr o H Hc. simpl in H.
  destruct H as (real & t1 & -> & H).
  apply escapes_cons in Hc. destruct Hc as [Hreal Hc].
  destruct real as [absolute|e]; simpl in H.
  2:{ simpl in Hreal. apply negb_false_iff in Hreal. rewrite Hreal in H.
      by destruct H as [-> ->]. }
  destruct H as (isfile & t2 & -> & H).
  destruct isfile; simpl in H; [|by destruct H as [-> ->]].
  destruct (Py.endswith _ "__init__.py"); simpl in H; [|by destruct H as [-> ->]].
  destruct H as (size & t3 & -> & H). destruct size as [size|e]; simpl in H.
  - by destruct (Z.eqb size 0); destruct H as [-> ->].
  - apply escapes_cons in Hc. destruct Hc as [_ Hc].
    apply escapes_cons in Hc. destruct Hc as [Hc _]. apply negb_false_iff in Hc.
    simpl in Hc. rewrite Hc in H. simpl in H. rewrite ?Hc in H. by destruct H as [-> ->].
Qed.

Lemma absorbs_merge_source_directory (source_directory : string)
    (all_paths : Dict.t) :
  absorbs (_merge_source_directory cwd source_directory all_paths).
Proof.
  intros tr o H Hc. unfold _merge_source_directory in H. apply runs_bind in H.
  destruct H as [(e & H & ->) | (paths & t1 & t2 & H1 & H2 & ->)].
  - unfold _find_python_paths, check_output in H. simpl in H.
    destruct H as (x & t & -> & H).
    destruct x as [out| |rc|e']; simpl in H; destruct H as [-> H]; [done|done| |done].
    by simplify_eq.
  - unfold _find_python_paths, check_output in H1. simpl in H1.
    destruct H1 as (x & t & -> & H1).
    destruct x as [out| |rc|e']; simpl in H1; destruct H1 as [-> H1]; [|done..].
    simplify_eq. apply escapes_cons in Hc. destruct Hc as [Hout Hc].
    simpl in Hout.
    assert (Hlines : forall x, In x (Py.split_on Py.newline (Py.strip out)) ->
                               Py.is_empty_string x = false).
    { intros x Hx. destruct (Py.is_empty_string x) eqn:E; [|done].
      assert (existsb Py.is_empty_string (Py.split_on Py.newline (Py.strip out)) = true)
        by (apply existsb_exists; eauto).
      congruence. }
    refine (absorbs_for_fold _ _ _ _ _ _ H2 Hc).
    intros s x Hx. apply absorbs_merge_path. by apply Hlines.
Qed.

Lemma absorbs_merge (self : SharedSourceDirectory) : absorbs (_merge pid cwd self).
Proof.
  unfold _merge. apply absorbs_bind.
  - unfold merge_all, merge_from. apply absorbs_for_fold.
    intros s x _. apply absorbs_merge_source_directory.
  - intros all_paths. apply absorbs_for_each. intros entry. apply absorbs_link_path.
Qed.

Lemma absorbs_check_manifest (self : SharedSourceDirectory) :
  absorbs (check_manifest pid self).
Proof.
  intros tr o H Hc. apply runs_check_manifest in H.
  destruct H as [file v tracked Hv Hsub | file v tracked Hv Hsub | e | file e
                | file | file | file v msg Hv]; try done.
  apply escapes_cons in Hc. destruct Hc as [_ Hc].
  apply escapes_cons in Hc. destruct Hc as [Hc _]. simpl in Hc.
  by rewrite Hv in Hc.
Qed.

Lemma absorbs_write_manifest (self : SharedSourceDirectory) :
  absorbs (with_open (manifest_path pid self) ModeW (fun file =>
             json_dump (_source_directories self) file)).
Proof.
  intros tr o H Hc. unfold with_open, open_, json_dump, call_sys, close, call in H.
  simpl in H. destruct H as (x & t & -> & H). destruct x as [file|e]; [|done].
  simpl in H. destruct H as (d & t1 & -> & H).
  destruct d as [[]|e]; simpl in H; [|done].
  by destruct H as (c & t2 & -> & -> & ->).
Qed.

Lemma absorbs_rebuild (self : SharedSourceDirectory) : absorbs (rebuild pid cwd self).
Proof.
  unfold rebuild.
  apply absorbs_bind; [apply absorbs_LOG|]. intros _.
  apply absorbs_bind; [apply absorbs_clear|]. intros _.
  apply absorbs_bind; [apply absorbs_merge|]. intros _.
  apply absorbs_bind; [apply absorbs_write_manifest|]. intros _.
  apply absorbs_LOG.
Qed.

Lemma absorbs_critical_section (self : SharedSourceDirectory) :
  absorbs (critical_section pid cwd self).
Proof.
  unfold critical_section. apply absorbs_bind; [apply absorbs_check_manifest|].
  intros [|]; [by intros tr o [-> ->] _ | apply absorbs_rebuild].
Qed.

End Absorbed.

Lemma absorbs_acquire_lock {A : Type} (path : string) (blocking : bool)
    (body : option Z -> prog A) :
  (forall held, absorbs (body held)) ->
  absorbs (acquire_lock path blocking body).
Proof.
  intros Hbody tr o H Hc. apply runs_acquire_lock in H.
  destruct H as [(e & He & -> & [-> | (lockfile & ->)])
                | (held & before & trb & after & ob & Hl & Hb & ->)].
  - simpl in Hc. by rewrite He in Hc.
  - simpl in Hc. rewrite He in Hc. simpl in Hc. by rewrite orb_true_r in Hc.
  - apply escapes_app in Hc. destruct Hc as [_ Hc].
    apply escapes_app in Hc. destruct Hc as [Hcb Hca].
    destruct (Hbody held _ _ Hb Hcb) as [Hl' Hs].
    assert (Hafter : link_failures_handled after = true /\ listing_failed after = false).
    { destruct Hl as [e ob He | lockfile e ob He | lockfile ob unlock]; [done..|].
      by destruct ob. }
    destruct Hafter as [Ha1 Ha2].
    assert (Hbefore : link_failures_handled before = true /\ listing_failed before = false)
      by (by destruct Hl).
    destruct Hbefore as [Hb1 Hb2].
    split.
    + by repeat apply link_failures_handled_app.
    + rewrite !listing_failed_app, Hb2, Ha2, orb_false_r. simpl.
      destruct Hl as [e ob He | lockfile e ob He | lockfile ob unlock]; [done..|].
      destruct ob as [a|x]; simpl in *.
      * by destruct unlock as [[]|e].
      * by destruct Hs as [-> Hs].
Qed.

Lemma absorbs_prepare (pid : Z) (cwd : string) (self : SharedSourceDirectory) :
  absorbs (prepare pid cwd self).
Proof.
  unfold prepare.
  apply absorbs_bind; [apply absorbs_LOG|]. intros _.
  apply absorbs_bind; [by apply absorbs_swallowed|]. intros _.
  apply absorbs_acquire_lock. intros _. apply absorbs_critical_section.
Qed.

(** C4 (the claim as written).  [prepare] lets an exception through that is
    not an [EnvironmentException]: on a root where the lock file cannot be
    created, [open] raises [PermissionError] in [acquire_lock], which catches
    [FileNotFoundError] only, and [prepare] ends with that [OSError]. *)
Lemma prepare_propagates_OSError :
  outcome_of (run (on read_only) (prepare 7 "/home/u" shared) [])
  = Raises (OSError (OSErr EACCES "Permission denied")) /\
  is_EnvironmentException (OSError (OSErr EACCES "Permission denied")) = false.
Proof. split; reflexivity. Qed.

(** C4 (as amended).  On any system, take a run of [prepare] in which no
    call fails at a place without a handler (the answers listed with
    [unguarded], and a second [symlink] that fails after the removal of the
    path): [find] is started and prints UTF-8 without an empty line; the
    lock file is opened, or its directory is missing, and locked and
    unlocked when it was opened; the root is listed; the manifest, when it
    is read, is text and a collection of hashable values; [realpath] and
    [stat] fail only for a missing file; a path that exists is removed and
    linked at the second attempt; the manifest is written.  Such a run
    returns, unless [find] ended with a status that is not zero: then, and
    only then, it raises the [EnvironmentException] of
    [_find_python_paths].  In such a run every [symlink] that failed is
    followed by the removal of the path and a second [symlink] that
    succeeded (the path existed), or by the log entry of the error (any other
    failure).  What such a run may hold, absorbed: the root or the directory
    of a link cannot be created, the directory of the lock file is missing,
    the manifest cannot be opened or read or is not JSON, an entry of the
    root cannot be removed, a file has vanished when [realpath] or [stat]
    looks at it, a link cannot be created. *)
Theorem prepare_absorbs_guarded_failures {W : Type} (h : handler W) (w : W)
    (pid : Z) (cwd : string) (self : SharedSourceDirectory) :
  let r := run h (prepare pid cwd self) w in
  escapes (trace_of r) = false ->
  link_failures_handled (trace_of r) = true /\
  outcome_of r = if listing_failed (trace_of r)
                 then Raises EnvironmentException_no_source_directory
                 else Returns tt.
Proof.
  intros r Hc.
  destruct (absorbs_prepare pid cwd self _ _ (run_runs h _ w) Hc) as [Hl Hs].
  fold r in Hl, Hs. split; [done|].
  destruct (outcome_of r) as [[]|e]; simpl in Hs.
  - by rewrite Hs.
  - destruct Hs as [-> Hs]. by rewrite Hs.
Qed.

Lemma prepare_absorbs_guarded_failures_witness :
  escapes (trace_of (run (on project) (prepare 7 "/home/u" shared)
                       [".pyre/shared_source_directory/pkg/mod.py"])) = false /\
  outcome_of (run (on project) (prepare 7 "/home/u" shared)
                [".pyre/shared_source_directory/pkg/mod.py"]) = Returns tt.
Proof.
  split; [reflexivity|].
  exact (proj2 (prepare_absorbs_guarded_failures (on project)
                  [".pyre/shared_source_directory/pkg/mod.py"] 7 "/home/u" shared
                  eq_refl)).
Defined.

(** ** A source directory without files *)

(** X1.  A source directory in which [find] finds no file: its output is
    empty, [split] gives one empty path, and [os.path.relpath] refuses it
    before the test that would skip it. *)
Theorem merge_of_an_empty_directory_raises {W : Type} (h : handler W) (w : W)
    (cwd source_directory out : string) (all_paths : Dict.t) :
  (h (find_files (Py.abspath cwd source_directory)) w).1 = ProcOutput out ->
  Py.strip out = EmptyString ->
  outcome_of (run h (_merge_source_directory cwd source_directory all_paths) w)
  = Raises (ValueError "no path specified").
Proof.
  intros Hfind Hout. unfold _merge_source_directory.
  rewrite run_bind, run_find_python_paths. cbv zeta. cbn [outcome_of].
  rewrite Hfind. cbn [for_fold run outcome_of trace_of world_of]. rewrite Hout. done.
Qed.

Lemma merge_of_an_empty_directory_raises_witness :
  outcome_of (run (on quiet) (_merge_source_directory "/home/u" "/src/empty" []) [])
  = Raises (ValueError "no path specified").
Proof.
  exact (merge_of_an_empty_directory_raises (on quiet) [] "/home/u" "/src/empty"
           EmptyString [] eq_refl eq_refl).
Defined.
(** ** The helpers and the listers *)

(** X3.  [cleanup] never raises.  Of a directory that is not isolated it
    removes nothing: it makes no call.  Of an isolated one it removes the
    root of this process, and ignores the failure of the removal. *)
Theorem cleanup_never_raises {W : Type} (h : handler W) (w : W) (pid : Z)
    (self : SharedSourceDirectory) :
  let r := run h (cleanup pid self) w in
  outcome_of r = Returns tt /\
  calls (trace_of r) = if _isolate self then [Rmtree (get_root pid self)] else [].
Proof.
  unfold cleanup, shutil_rmtree, call_sys. destruct (_isolate self); simpl; [|done].
  destruct (h _ w) as [[[]|e] w']; done.
Qed.

Lemma get_root_isolated (pid : Z) (self : SharedSourceDirectory) :
  get_root pid self
  = ".pyre/shared_source_directory"
    +:+ (if _isolate self then "_" +:+ pretty pid else "").
Proof. done. Qed.

(** X4.  Two directories have the same root only when both are shared, or
    both are isolated in processes with the same pid: an isolated root is
    never the shared one, and never the root of another process. *)
Theorem get_root_separates (pid1 pid2 : Z) (self1 self2 : SharedSourceDirectory) :
  get_root pid1 self1 = get_root pid2 self2 ->
  _isolate self1 = _isolate self2 /\ (_isolate self1 = true -> pid1 = pid2).
Proof.
  rewrite !get_root_isolated. intros H. apply (inj (String.append _)) in H.
  destruct (_isolate self1), (_isolate self2); try done.
  split; [done|]. intros _.
  apply (inj (String.append "_")) in H. by apply (inj pretty) in H.
Qed.

Lemma get_root_separates_witness :
  _isolate isolated = _isolate isolated /\ (_isolate isolated = true -> 7%Z = 7%Z).
Proof. exact (get_root_separates 7 7 isolated isolated eq_refl). Defined.

Lemma holds_space_app (s t : string) :
  holds_space (s +:+ t) = holds_space s || holds_space t.
Proof.
  induction s as [|c s IH]; [done|].
  change (String c s +:+ t) with (String c (s +:+ t)). simpl.
  by rewrite IH, orb_assoc.
Qed.

Lemma split_ws_go_words (cur s : string) :
  holds_space cur = false ->
  Forall (fun name => name <> EmptyString /\ holds_space name = false)
    (Py.split_ws_go cur s).
Proof.
  revert cur. induction s as [|c s IH]; intros cur Hcur; simpl.
  - destruct cur; simpl; [done|]. by repeat constructor.
  - destruct (Py.isspace c) eqn:Hc.
    + destruct cur; simpl; [by apply IH|].
      constructor; [done | by apply IH].
    + apply IH. by rewrite holds_space_app, Hcur; simpl; rewrite Hc.
Qed.

(** X5.  [Filesystem.list] makes one call of [find] and converts no failure:
    a status that is not zero ends it with [CalledProcessError] and a missing
    [find] with the [OSError], where [MercurialBackedFilesystem.list] raises
    [EnvironmentException]; an output that is not UTF-8 ends it with the
    [UnicodeDecodeError] of [decode].  A name it returns is never empty and
    holds no white space: a path with a space in it comes back in pieces. *)
Theorem find_list_converts_no_failure {W : Type} (h : handler W) (w : W)
    (root pattern : string) :
  let r := run h (Filesystem_list root pattern) w in
  let found := (h (find_named root pattern) w).1 in
  trace_of r = [Ev (find_named root pattern) found] /\
  outcome_of r =
    match found with
    | ProcOutput out => Returns (Py.split_ws out)
    | ProcUndecodable => Raises UnicodeDecodeError
    | ProcExit returncode => Raises (CalledProcessError returncode)
    | ProcOSError e => Raises (OSError e)
    end /\
  forall names, outcome_of r = Returns names ->
    Forall (fun name => name <> EmptyString /\ holds_space name = false) names.
Proof.
  unfold Filesystem_list, find_named. simpl.
  destruct (h _ w) as [[out| |code|e] w1]; simpl; repeat split; try done.
  intros names [= <-]. by apply split_ws_go_words.
Qed.

(** X6.  [get_filesystem] asks [hg status] once.  It answers the mercurial
    lister when the command ends with status zero, whatever it printed (the
    output is not decoded), and the plain one when it
    ends with another status or [hg] is missing; it raises when [hg] cannot
    be started for another reason. *)
Theorem get_filesystem_by_hg_status {W : Type} (h : handler W) (w : W) :
  let r := run h get_filesystem w in
  let hg := (h hg_status w).1 in
  trace_of r = [Ev hg_status hg] /\
  outcome_of r =
    match hg with
    | ProcOutput _ | ProcUndecodable => Returns MercurialBackedFilesystem
    | ProcExit _ => Returns GenericFilesystem
    | ProcOSError e =>
        if Z.eqb (errno e) ENOENT then Returns GenericFilesystem
        else Raises (OSError e)
    end.
Proof.
  unfold get_filesystem, hg_status. simpl.
  destruct (h _ w) as [[out| |code|e] w1]; simpl; [done..|].
  unfold is_CalledProcessError_or_FileNotFoundError. simpl.
  by destruct (Z.eqb (errno e) ENOENT).
Qed.

(** X8.  [remove_if_exists] never raises and always tries both removals, as
    a file and then as a directory, whatever the first one answered. *)
Theorem remove_if_exists_tries_both {W : Type} (h : handler W) (w : W)
    (path : string) :
  let r := run h (remove_if_exists path) w in
  outcome_of r = Returns tt /\
  calls (trace_of r) = [Remove path; Rmtree path].
Proof. rewrite run_remove_if_exists. done. Qed.

(** X9.  [is_empty] is true for a file of size zero and false for any other
    size; a file that does not exist is not empty; any other failure of
    [stat] is raised. *)
Theorem is_empty_by_stat {W : Type} (h : handler W) (w : W) (path : string) :
  let r := run h (is_empty path) w in
  let stat := (h (StatSize path) w).1 in
  trace_of r = [Ev (StatSize path) stat] /\
  outcome_of r =
    match stat with
    | Done size => Returns (Z.eqb size 0)
    | Fails e =>
        if Z.eqb (errno e) ENOENT then Returns false else Raises (OSError e)
    end.
Proof.
  unfold is_empty, os_stat_size, call_sys. simpl.
  destruct (h _ w) as [[size|e] w1]; simpl; [done|].
  by destruct (Z.eqb (errno e) ENOENT).
Qed.

Lemma runs_link_path (root relative original : string) tr o :
  runs (link_path root (relative, original)) tr o ->
  linked original (Py.path_join root relative) tr o.
Proof.
  unfold link_path, os_makedirs, os_symlink, os_unlink, call_sys, LOG, call.
  simpl. intros (made & t1 & -> & H).
  assert (H' : exists s t2, t1 = Ev (Symlink original (Py.path_join root relative)) s :: t2 /\
            runs (match s with
                  | Done _ => Ret tt
                  | Fails e =>
                      if Z.eqb (errno e) EEXIST then
                        bind (os_unlink (Py.path_join root relative)) (fun _ =>
                          os_symlink original (Py.path_join root relative))
                      else LOG ERROR (strerror e)
                  end) t2 o).
  { destruct made as [[]|e]; simpl in H; destruct H as (s & t2 & -> & H);
      exists s, t2; (split; [done|]); by destruct s as [[]|e']. }
  clear H. destruct H' as (s & t2 & -> & H). destruct s as [[]|e].
  - destruct H as [-> ->]. apply linked_at_once.
  - destruct (Z.eqb_spec (errno e) EEXIST) as [He|He].
    + unfold os_unlink, os_symlink, call_sys in H. simpl in H.
      destruct H as (u & t3 & -> & H). destruct u as [[]|e']; simpl in H.
      * destruct H as (s & t4 & -> & H).
        destruct s as [[]|e']; destruct H as [-> ->];
          [by apply linked_again | by apply linked_refused_again].
      * destruct H as [-> ->]. by apply linked_not_removed.
    + simpl in H. destruct H as ([] & t3 & -> & -> & ->). by apply linked_skipped.
Qed.

Lemma runs_link_loop (root : string) (all_paths : Dict.t) tr o :
  runs (for_each all_paths (link_path root)) tr o -> link_loop root all_paths tr o.
Proof.
  revert tr. induction all_paths as [|[relative original] rest IH]; intros tr;
    cbn [for_each].
  - intros [-> ->]. apply link_loop_done.
  - intros H. apply runs_bind in H.
    destruct H as [(e & H & ->) | ([] & t1 & t2 & H1 & H2 & ->)].
    + by apply link_loop_stop, runs_link_path.
    + apply link_loop_turn; [by apply runs_link_path | by apply IH].
Qed.

(** X10.  The second loop of [_merge] takes the entries of the mapping in
    order.  For each it makes the directory of the link, failing or not, and
    tries the link.  When that fails because the path exists, the path is
    removed and the link tried once more, and a failure of either is raised,
    which ends the loop before the entries that are left.  Any other failure
    of the first attempt is logged and the loop goes on. *)
Theorem link_loop_cases {W : Type} (h : handler W) (w : W) (root : string)
    (all_paths : Dict.t) :
  let r := run h (for_each all_paths (link_path root)) w in
  link_loop root all_paths (trace_of r) (outcome_of r).
Proof. intros r. apply runs_link_loop, run_runs. Qed.
(** ** A manifest that is read but does not make the directory up to date *)

Section Stale.

Variable pid : Z.
Variable cwd : string.

Lemma stale_runs (self : SharedSourceDirectory) (v : json) (tracked : list json) tr o :
  runs (prepare pid cwd self) tr o ->
  manifest_reading tr = Some (Read (Loaded v)) ->
  py_set v = Ret tracked ->
  issubset (_source_directories self) tracked = false ->
  exists prologue tried rebuilt after ob,
    tr = prologue ++ tried ++ rebuilt ++ after /\
    runs (check_manifest pid self) tried (Returns false) /\
    runs (rebuild pid cwd self) rebuilt ob /\
    ((after = [] /\ o = ob) \/
     exists lockfile unlock,
       after = release lockfile ob unlock /\ o = released_outcome ob unlock).
Proof.
  intros Hruns Hread Hset Hsub.
  apply runs_prepare in Hruns as (made & tr' & -> & Hlock).
  apply runs_acquire_lock in Hlock
    as [(e & He & Ho & Hshape)
       | (held & before & trb & after & ob & Hlocking & Hbody & ->)].
  - destruct Hshape as [-> | [lockfile ->]]; simpl in Hread; discriminate.
  - apply runs_critical_section in Hbody
      as [[Hc ->] | [(tc & trr & Hc & Htried & Hrb & ->) | (e & Hc & ->)]].
    + exfalso.
      inversion Hlocking; subst; clear Hlocking;
        inversion Hc; subst; clear Hc; simpl in Hread;
        injection Hread as <-; congruence.
    + exists (Ev (Log INFO ("Constructing shared directory `"
                            +:+ get_root pid self +:+ "`")) tt
              :: Ev (Makedirs (get_root pid self)) made :: before),
        tc, trr, after, ob.
      split; [by rewrite <- !app_assoc|]. split; [exact Htried|].
      split; [exact Hrb|].
      inversion Hlocking; subst; eauto.
    + exfalso.
      inversion Hlocking; subst; clear Hlocking;
        inversion Hc; subst; clear Hc; simpl in Hread;
        try discriminate; injection Hread as <-; congruence.
Qed.

(** X11.  When the manifest holds a collection that lacks one of the
    requested directories, [prepare] rebuilds: the [try] ends without the
    [return], the rebuild runs next, and [prepare] ends as the rebuild ends,
    through the exit of [acquire_lock] when the lock is held. *)
Theorem stale_manifest_rebuilds {W : Type} (h : handler W) (w : W)
    (self : SharedSourceDirectory) (v : json) (tracked : list json) :
  let r := run h (prepare pid cwd self) w in
  manifest_reading (trace_of r) = Some (Read (Loaded v)) ->
  py_set v = Ret tracked ->
  issubset (_source_directories self) tracked = false ->
  exists prologue tried rebuilt after ob,
    trace_of r = prologue ++ tried ++ rebuilt ++ after /\
    runs (check_manifest pid self) tried (Returns false) /\
    runs (rebuild pid cwd self) rebuilt ob /\
    ((after = [] /\ outcome_of r = ob) \/
     exists lockfile unlock,
       after = release lockfile ob unlock /\
       outcome_of r = released_outcome ob unlock).
Proof.
  intros r Hread Hset Hsub.
  eapply stale_runs; [apply run_runs | exact Hread | exact Hset | exact Hsub].
Qed.

Lemma checked_unusable (manifest : string) (dirs : list string) tc oc
    (r : load_result) (x : exn) (rest : list event) :
  checked manifest dirs tc oc ->
  manifest_reading (tc ++ rest) = Some (Read r) ->
  unusable r = Some x ->
  oc = Raises x /\ Forall (fun c => is_rebuild_call c = false) (calls tc).
Proof.
  intros Hc Hread Hx.
  destruct Hc as [file v tracked Hv Hsub | file v tracked Hv Hsub | e | file e
                 | file | file | file v msg Hv];
    simpl in Hread; simplify_eq; simpl in Hx; rewrite ?Hv in Hx; simplify_eq;
    (split; [done | by repeat constructor]).
Qed.

Lemma unusable_runs (self : SharedSourceDirectory) (r : load_result) (x : exn) tr o :
  runs (prepare pid cwd self) tr o ->
  manifest_reading tr = Some (Read r) ->
  unusable r = Some x ->
  Forall (fun c => is_rebuild_call c = false) (calls tr) /\ o = Raises x.
Proof.
  intros Hruns Hread Hx.
  apply runs_prepare in Hruns as (made & tr' & -> & Hlock).
  apply runs_acquire_lock in Hlock
    as [(e & He & Ho & Hshape)
       | (held & before & trb & after & ob & Hlocking & Hbody & ->)].
  - destruct Hshape as [-> | [lockfile ->]]; simpl in Hread; discriminate.
  - assert (Hread' : manifest_reading (trb ++ after) = Some (Read r))
      by (by destruct Hlocking).
    assert (Hbefore : Forall (fun c => is_rebuild_call c = false) (calls before))
      by (destruct Hlocking; by repeat constructor).
    apply runs_critical_section in Hbody
      as [[Hc ->] | [(tc & trr & Hc & Htried & Hrb & ->) | (e & Hc & ->)]].
    + by destruct (checked_unusable _ _ _ _ _ _ _ Hc Hread' Hx).
    + rewrite <- app_assoc in Hread'.
      by destruct (checked_unusable _ _ _ _ _ _ _ Hc Hread' Hx).
    + destruct (checked_unusable _ _ _ _ _ _ _ Hc Hread' Hx) as [[= ->] Hcalls].
      assert (Hx' : is_FileNotFoundError x = false).
      { destruct r as [v| | |]; simpl in Hx; simplify_eq; [|done].
        destruct (py_set_cases v) as [[tracked Hv]|[msg Hv]]; rewrite Hv in Hx;
          by simplify_eq. }
      split.
      * rewrite !calls_cons. repeat constructor.
        rewrite !calls_app. repeat (apply Forall_app; split); try done.
        inversion Hlocking; subst; simpl; by repeat constructor.
      * inversion Hlocking; subst; try done. simpl. by rewrite Hx'.
Qed.

(** X12.  A manifest that [json.load] cannot decode as text, or that holds a
    document [set()] refuses (a number, [true], [null], a list with a list or
    an object in it), is not taken for a miss: [prepare] raises the
    [UnicodeDecodeError] or the [TypeError] and clears, merges, links and
    writes nothing, so the manifest stays as it is. *)
Theorem unusable_manifest_raises {W : Type} (h : handler W) (w : W)
    (self : SharedSourceDirectory) (read : load_result) (x : exn) :
  let r := run h (prepare pid cwd self) w in
  manifest_reading (trace_of r) = Some (Read read) ->
  unusable read = Some x ->
  Forall (fun c => is_rebuild_call c = false) (calls (trace_of r)) /\
  outcome_of r = Raises x.
Proof.
  intros r Hread Hx.
  eapply unusable_runs; [apply run_runs | exact Hread | exact Hx].
Qed.

End Stale.

Lemma stale_manifest_rebuilds_witness :
  exists prologue tried rebuilt after ob,
    trace_of (run (on outdated) (prepare 7 "/home/u" shared) [])
    = prologue ++ tried ++ rebuilt ++ after /\
    runs (check_manifest 7 shared) tried (Returns false) /\
    runs (rebuild 7 "/home/u" shared) rebuilt ob /\
    ((after = [] /\
      outcome_of (run (on outdated) (prepare 7 "/home/u" shared) []) = ob) \/
     exists lockfile unlock,
       after = release lockfile ob unlock /\
       outcome_of (run (on outdated) (prepare 7 "/home/u" shared) [])
       = released_outcome ob unlock).
Proof.
  apply (stale_manifest_rebuilds 7 "/home/u" (on outdated) [] shared
           (manifest_of ["/src/a"]) [JStr "/src/a"]);
    reflexivity.
Defined.

Lemma unusable_manifest_raises_witness :
  Forall (fun c => is_rebuild_call c = false)
    (calls (trace_of (run (on nulled) (prepare 7 "/home/u" shared) []))) /\
  outcome_of (run (on nulled) (prepare 7 "/home/u" shared) [])
  = Raises (TypeError "object is not iterable").
Proof.
  apply (unusable_manifest_raises 7 "/home/u" (on nulled) [] shared
           (Loaded JNull) (TypeError "object is not iterable"));
    reflexivity.
Defined.
(** ** [prepare] after [prepare] *)

Lemma last_written_app (t1 t2 : list event) :
  last_written (t1 ++ t2)
  = match last_written t2 with Some l => Some l | None => last_written t1 end.
Proof.
  induction t1 as [|e t1 IH]; simpl.
  - by destruct (last_written t2).
  - rewrite IH. by destruct (last_written t2).
Qed.

Section Twice.

Variable pid : Z.
Variable cwd : string.

Lemma rebuild_returned (self : SharedSourceDirectory) tr :
  runs (rebuild pid cwd self) tr (Returns tt) ->
  last_written tr = Some (_source_directories self).
Proof.
  unfold rebuild. intros H.
  apply runs_bind in H. destruct H as [(e & _ & [=]) | ([] & t1 & t2 & _ & H & ->)].
  apply runs_bind in H. destruct H as [(e & _ & [=]) | ([] & t3 & t4 & _ & H & ->)].
  apply runs_bind in H. destruct H as [(e & _ & [=]) | ([] & t5 & t6 & _ & H & ->)].
  apply runs_bind in H. destruct H as [(e & _ & [=]) | ([] & t7 & t8 & Hw & H & ->)].
  rewrite !last_written_app.
  simpl in H. destruct H as ([] & t9 & -> & -> & _). simpl.
  unfold with_open, open_, json_dump, call_sys, close, call in Hw. simpl in Hw.
  destruct Hw as (x & t & -> & Hw). destruct x as [file|e]; [|by destruct Hw].
  simpl in Hw. destruct Hw as (d & t' & -> & Hw).
  destruct d as [[]|e]; simpl in Hw; destruct Hw as (c & t'' & -> & -> & Hw); done.
Qed.

Lemma returned_runs (self : SharedSourceDirectory) tr :
  runs (prepare pid cwd self) tr (Returns tt) ->
  (last_written tr = None /\
   exists v tracked,
     manifest_reading tr = Some (Read (Loaded v)) /\ py_set v = Ret tracked /\
     issubset (_source_directories self) tracked = true) \/
  last_written tr = Some (_source_directories self).
Proof.
  intros Hruns.
  apply runs_prepare in Hruns as (made & tr' & -> & Hlock).
  apply runs_acquire_lock in Hlock
    as [(e & He & [=] & Hshape)
       | (held & before & trb & after & ob & Hlocking & Hbody & ->)].
  assert (Hob : ob = Returns tt).
  { inversion Hlocking; subst; try done.
    destruct ob as [[]|x]; [done|]. simpl in *. by destruct (is_FileNotFoundError x). }
  subst ob.
  assert (Hafter : last_written after = None).
  { inversion Hlocking; subst; try done.
    destruct unlock as [[]|e]; [done|]. by destruct (Z.eqb (errno e) ENOENT). }
  assert (Hbefore : last_written before = None) by (by destruct Hlocking).
  apply runs_critical_section in Hbody
    as [[Hc _] | [(tc & trr & Hc & Htried & Hrb & ->) | (e & Hc & [=])]].
  - left. inversion Hc; subst. split.
    + change (?a :: ?b :: before ++ ?c ++ after) with ([a; b] ++ before ++ c ++ after).
      rewrite !last_written_app, Hafter, Hbefore. done.
    + exists v, tracked. split; [|done]. by destruct Hlocking.
  - right. apply rebuild_returned in Hrb.
    change (?a :: ?b :: before ++ ?c ++ after) with ([a; b] ++ before ++ c ++ after).
    by rewrite !last_written_app, Hafter, Hrb.
Qed.

(** X13.  When [prepare] returns, the manifest covers the requested
    directories: either the run wrote nothing and had read a collection that
    holds them all, or the last list it wrote, with success, is the list of
    the requested directories. *)
Theorem prepare_leaves_a_covering_manifest {W : Type} (h : handler W) (w : W)
    (self : SharedSourceDirectory) :
  let r := run h (prepare pid cwd self) w in
  outcome_of r = Returns tt ->
  (last_written (trace_of r) = None /\
   exists v tracked,
     manifest_reading (trace_of r) = Some (Read (Loaded v)) /\
     py_set v = Ret tracked /\
     issubset (_source_directories self) tracked = true) \/
  last_written (trace_of r) = Some (_source_directories self).
Proof.
  intros r Hr. apply returned_runs. rewrite <- Hr. apply run_runs.
Qed.

(** X14.  [prepare] twice.  On a system that keeps its files, a second
    [prepare] for the same directories finds in the manifest what the first,
    which returned, has left there: the list it wrote or, when it wrote
    nothing, what it read.  The second then clears, merges, links and writes
    nothing, and returns unless its unlock fails. *)
Theorem prepare_twice_is_a_no_op {W W' : Type} (h : handler W) (w : W)
    (h' : handler W') (w' : W') (self : SharedSourceDirectory) :
  let first := run h (prepare pid cwd self) w in
  let second := run h' (prepare pid cwd self) w' in
  outcome_of first = Returns tt ->
  manifest_reading (trace_of second) = manifest_after (trace_of first) ->
  Forall (fun c => is_rebuild_call c = false) (calls (trace_of second)) /\
  (unlock_refused (trace_of second) = false -> outcome_of second = Returns tt).
Proof.
  intros first second Hfirst Hread.
  pose proof (run_runs h (prepare pid cwd self) w) as H1. fold first in H1.
  rewrite Hfirst in H1. apply returned_runs in H1.
  unfold manifest_after in Hread.
  destruct H1 as [(Hnone & v & tracked & Hv & Hset & Hsub) | Hsome].
  - rewrite Hnone, Hv in Hread.
    exact (up_to_date_runs pid cwd self v tracked _ _ (run_runs h' _ w') Hread Hset Hsub).
  - rewrite Hsome in Hread.
    refine (up_to_date_runs pid cwd self _ _ _ _ (run_runs h' _ w') Hread
              (py_set_manifest _) _).
    apply issubset_strings. by intros d Hd.
Qed.

End Twice.

Lemma prepare_leaves_a_covering_manifest_witness :
  (last_written (trace_of (run (on project) (prepare 7 "/home/u" shared) [])) = None /\
   exists v tracked,
     manifest_reading (trace_of (run (on project) (prepare 7 "/home/u" shared) []))
     = Some (Read (Loaded v)) /\
     py_set v = Ret tracked /\
     issubset (_source_directories shared) tracked = true) \/
  last_written (trace_of (run (on project) (prepare 7 "/home/u" shared) []))
  = Some (_source_directories shared).
Proof.
  exact (prepare_leaves_a_covering_manifest 7 "/home/u" (on project) [] shared eq_refl).
Defined.

Lemma prepare_twice_is_a_no_op_witness :
  Forall (fun c => is_rebuild_call c = false)
    (calls (trace_of (run (on rebuilt) (prepare 7 "/home/u" shared) []))) /\
  (unlock_refused (trace_of (run (on rebuilt) (prepare 7 "/home/u" shared) [])) = false ->
   outcome_of (run (on rebuilt) (prepare 7 "/home/u" shared) []) = Returns tt).
Proof.
  exact (prepare_twice_is_a_no_op 7 "/home/u" (on project) [] (on rebuilt) [] shared
           eq_refl eq_refl).
Defined.
(** ** The lines of [find] *)

Lemma join_split_on (c : ascii) (s : string) :
  Py.join_with (String c EmptyString) (Py.split_on c s) = s.
Proof.
  induction s as [|a s IH]; [done|].
  cbn [Py.split_on]. destruct (Ascii.eqb_spec a c) as [->|Hac].
  - pose proof (split_on_not_nil c s) as Hne.
    destruct (Py.split_on c s) as [|x l]; [done|].
    cbn [Py.join_with]. by rewrite <- IH.
  - pose proof (split_on_not_nil c s) as Hne.
    destruct (Py.split_on c s) as [|x l]; [done|].
    rewrite <- IH. by destruct l.
Qed.

Lemma split_on_holds (c : ascii) (s : string) :
  Forall (fun line => holds c line = false) (Py.split_on c s).
Proof.
  induction s as [|a s IH]; simpl; [by repeat constructor|].
  destruct (Ascii.eqb a c) eqn:Hac; [by constructor|].
  destruct (Py.split_on c s) as [|x l]; [by repeat constructor; simpl; rewrite Hac|].
  inversion IH as [|? ? Hx Hl]; subst.
  constructor; [|done]. simpl. by rewrite Hac.
Qed.

Lemma split_on_line (c : ascii) (line rest : string) :
  holds c line = false ->
  Py.split_on c (line +:+ String c rest) = line :: Py.split_on c rest.
Proof.
  induction line as [|a line IH]; intros Hline.
  - change (Py.split_on c (String c rest) = EmptyString :: Py.split_on c rest).
    simpl. by rewrite Ascii.eqb_refl.
  - simpl in Hline. apply orb_false_iff in Hline. destruct Hline as [Hac Hline].
    change (Py.split_on c (String a (line +:+ String c rest))
            = String a line :: Py.split_on c rest).
    cbn [Py.split_on]. rewrite Hac, (IH Hline). done.
Qed.

Lemma split_on_last (c : ascii) (line : string) :
  holds c line = false -> Py.split_on c line = [line].
Proof.
  induction line as [|a line IH]; intros Hline; [done|].
  simpl in Hline. apply orb_false_iff in Hline. destruct Hline as [Hac Hline].
  cbn [Py.split_on]. by rewrite Hac, (IH Hline).
Qed.

Lemma split_on_join (c : ascii) (lines : list string) :
  lines <> [] ->
  Forall (fun line => holds c line = false) lines ->
  Py.split_on c (Py.join_with (String c EmptyString) lines) = lines.
Proof.
  induction lines as [|line lines IH]; intros Hne Hlines; [done|].
  inversion Hlines as [|? ? Hline Hrest]; subst.
  destruct lines as [|line' lines].
  - by apply split_on_last.
  - change (Py.join_with (String c "") (line :: line' :: lines))
      with (line +:+ String c (Py.join_with (String c "") (line' :: lines))).
    rewrite split_on_line by done. by rewrite IH.
Qed.

(** X15.  [_find_python_paths] makes one call, of [find] on the absolute
    path of the root with the errors of [find] dropped.  Whatever the status
    of a [find] that failed, the exception is the same
    [EnvironmentException]; an output that is not UTF-8 and a [find] that
    cannot be started are not converted.  The paths returned are exactly the
    lines of the output without the white space around it: no path holds a
    newline, joined with newlines they give that output back, and they are
    the only list that is not empty of which both are true. *)
Theorem find_python_paths_keeps_the_lines {W : Type} (h : handler W) (w : W)
    (cwd root : string) :
  let r := run h (_find_python_paths cwd root) w in
  let found := (h (find_files (Py.abspath cwd root)) w).1 in
  trace_of r = [Ev (find_files (Py.abspath cwd root)) found] /\
  match found with
  | ProcOutput out =>
      exists paths,
        outcome_of r = Returns paths /\
        Forall (fun path => holds Py.newline path = false) paths /\
        Py.join_with (String Py.newline EmptyString) paths = Py.strip out /\
        forall lines,
          lines <> [] ->
          Forall (fun line => holds Py.newline line = false) lines ->
          Py.join_with (String Py.newline EmptyString) lines = Py.strip out ->
          paths = lines
  | ProcUndecodable => outcome_of r = Raises UnicodeDecodeError
  | ProcExit _ => outcome_of r = Raises EnvironmentException_no_source_directory
  | ProcOSError e => outcome_of r = Raises (OSError e)
  end.
Proof.
  intros r found. unfold r. rewrite run_find_python_paths. fold found.
  split; [done|]. simpl. destruct found as [out| |code|e]; [|done..].
  eexists. split; [done|]. split; [apply split_on_holds|].
  split; [apply join_split_on|].
  intros lines Hne Hlines <-. by apply split_on_join.
Qed.
(** ** A [find] that cannot be started *)

Lemma stops_at_bind {A B : Type} (ev : event) (x : exn) (p : prog A)
    (f : A -> prog B) :
  stops_at ev x p -> (forall a, stops_at ev x (f a)) -> stops_at ev x (bind p f).
Proof.
  intros Hp Hf tr o H Hin. apply runs_bind in H.
  destruct H as [(e & H & ->) | (a & t1 & t2 & H1 & H2 & ->)].
  - pose proof (Hp _ _ H Hin) as Heq. by simplify_eq.
  - apply in_app_or in Hin. destruct Hin as [Hin|Hin].
    + by pose proof (Hp _ _ H1 Hin).
    + exact (Hf _ _ _ H2 Hin).
Qed.

Lemma stops_at_for_fold {A S : Type} (ev : event) (x : exn) (l : list A)
    (body : S -> A -> prog S) (s : S) :
  (forall s a, stops_at ev x (body s a)) -> stops_at ev x (for_fold l body s).
Proof.
  intros Hbody. revert s. induction l as [|a l IH]; intros s; simpl.
  - by intros tr o [-> ->] [].
  - by apply stops_at_bind.
Qed.

(** A program that does not make the call of [ev] has no run with [ev]. *)
Lemma stops_at_within {A : Type} (P : syscall -> bool) (ev : event) (x : exn)
    (p : prog A) :
  within P p -> P (call_of ev) = false -> stops_at ev x p.
Proof.
  intros Hp Hev tr o H Hin. exfalso.
  pose proof (within_runs P p tr o Hp H) as Hall.
  rewrite List.Forall_forall in Hall.
  assert (Hc : In (call_of ev) (calls tr)) by (by apply in_map).
  apply Hall in Hc. congruence.
Qed.

Lemma lock_granted_within {A : Type} (p : prog A) tr o :
  within is_not_lockf p -> runs p tr o -> lock_granted tr = false.
Proof.
  intros Hp H. pose proof (within_runs _ p tr o Hp H) as Hall.
  clear H Hp. induction tr as [|[c r] tr IH]; [done|].
  rewrite calls_cons in Hall. inversion Hall as [|? ? Hc Hrest]; subst.
  simpl. rewrite (IH Hrest), orb_false_r. by destruct c.
Qed.

Lemma lock_granted_app (t1 t2 : list event) :
  lock_granted (t1 ++ t2) = lock_granted t1 || lock_granted t2.
Proof. apply existsb_app. Qed.

Lemma within_LOG (P : syscall -> bool) (lvl : level) (msg : string) :
  P (Log lvl msg) = true -> within P (LOG lvl msg).
Proof. intros HP. by apply within_call. Qed.

Section NotStarted.

Variable pid : Z.
Variable cwd : string.

Lemma files_check_manifest (self : SharedSourceDirectory) :
  within is_file_call (check_manifest pid self).
Proof.
  unfold check_manifest, with_open. apply within_try_except; [|done].
  apply within_bind.
  - apply within_bind; [by apply within_call_sys|]. intros file.
    apply within_finally; [|by apply within_call].
    apply within_bind.
    + split; [done|]. by intros [v|e| |].
    + intros v. destruct (py_set_cases v) as [[tracked ->]|[msg ->]]; done.
  - intros tracked. destruct (issubset _ tracked); [|done].
    apply within_bind; [by apply within_LOG | done].
Qed.

Lemma files_write_manifest (self : SharedSourceDirectory) :
  within is_file_call
    (with_open (manifest_path pid self) ModeW (fun file =>
       json_dump (_source_directories self) file)).
Proof.
  unfold with_open. apply within_bind; [by apply within_call_sys|]. intros file.
  apply within_finally; [by apply within_call_sys | by apply within_call].
Qed.

Lemma files_merge_path (source_directory : string) (all_paths : Dict.t)
    (path : string) :
  within is_file_call (merge_path cwd source_directory all_paths path).
Proof.
  unfold merge_path. apply within_bind.
  - unfold os_path_relpath. by destruct (Py.is_empty_string path).
  - intros relative. destruct (Py.is_empty_string path); [done|].
    destruct (Dict.mem relative all_paths); [done|].
    apply within_try_except; [|done].
    apply within_bind; [by apply within_call_sys|]. intros absolute.
    apply within_bind; [by apply within_call|]. intros [|]; simpl; [|done].
    apply within_bind.
    + destruct (Py.endswith relative "__init__.py"); [|done].
      unfold is_empty. apply within_try_except; [|done].
      apply within_bind; [by apply within_call_sys | done].
    + by intros [|].
Qed.

Lemma lockless_critical_section (self : SharedSourceDirectory) :
  within is_not_lockf (critical_section pid cwd self).
Proof.
  unfold critical_section. apply within_bind.
  - eapply within_weaken; [|apply files_check_manifest]. by intros [].
  - intros [|]; [done|]. unfold rebuild.
    apply within_bind; [by apply within_LOG|]. intros _.
    apply within_bind.
    { eapply within_weaken; [|apply within_clear]. by intros []. }
    intros _. apply within_bind.
    { eapply within_weaken; [|apply within_merge]. by intros []. }
    intros _. apply within_bind.
    { eapply within_weaken; [|apply files_write_manifest]. by intros []. }
    intros _. by apply within_LOG.
Qed.

Section Event.

Variables (argv : list string) (stderr_devnull : bool) (e : oserror).

Let ev : event := Ev (CheckOutput argv stderr_devnull) (ProcOSError e).

Lemma stops_at_files {A : Type} (p : prog A) :
  within is_file_call p -> stops_at ev (OSError e) p.
Proof. intros Hp. by apply (stops_at_within is_file_call). Qed.

Lemma stops_at_find (root : string) :
  stops_at ev (OSError e) (_find_python_paths cwd root).
Proof.
  intros tr o H Hin. unfold _find_python_paths, check_output in H. simpl in H.
  destruct H as (x & t & -> & H).
  assert (Hx : x = ProcOSError e /\ t = [] \/ In ev t).
  { destruct Hin as [Heq|Hin]; [|by right].
    apply (f_equal process_answer) in Heq. simpl in Heq.
    destruct x as [out| |rc|e']; simpl in H; destruct H as [-> _]; left;
      by simplify_eq. }
  destruct x as [out| |rc|e']; simpl in H; destruct H as [-> H];
    destruct Hx as [[Hx _]|[]]; by simplify_eq.
Qed.

Lemma stops_at_critical_section (self : SharedSourceDirectory) :
  stops_at ev (OSError e) (critical_section pid cwd self).
Proof.
  unfold critical_section.
  apply stops_at_bind; [apply stops_at_files, files_check_manifest|].
  intros [|]; [by intros tr o [-> ->] []|]. unfold rebuild.
  apply stops_at_bind; [by apply stops_at_files, within_LOG|]. intros _.
  apply stops_at_bind.
  { apply stops_at_files. eapply within_weaken; [|apply within_clear]. by intros []. }
  intros _. apply stops_at_bind.
  { unfold _merge. apply stops_at_bind.
    - unfold merge_all, merge_from. apply stops_at_for_fold.
      intros all_paths source_directory. unfold _merge_source_directory.
      apply stops_at_bind; [apply stops_at_find|]. intros paths.
      apply stops_at_for_fold. intros s path.
      apply stops_at_files, files_merge_path.
    - intros all_paths. apply stops_at_files, within_for_each. intros entry.
      eapply within_weaken; [|apply within_link_path]. by intros []. }
  intros _. apply stops_at_bind; [apply stops_at_files, files_write_manifest|].
  intros _. by apply stops_at_files, within_LOG.
Qed.

(** [Hin] says that the event is one of a list none of which is the answer
    to a [check_output]. *)
Ltac no_process_in Hin :=
  simpl in Hin;
  repeat (destruct Hin as [Hin|Hin];
          [by apply (f_equal process_answer) in Hin|]).

Lemma not_started_runs (self : SharedSourceDirectory) tr o :
  runs (prepare pid cwd self) tr o ->
  In ev tr ->
  o = if lock_granted tr && Z.eqb (errno e) ENOENT
      then Raises (RuntimeError "generator didn't stop after throw()")
      else Raises (OSError e).
Proof.
  intros Hruns Hin.
  apply runs_prepare in Hruns as (made & tr' & -> & Hlock).
  destruct Hin as [Hin|[Hin|Hin]];
    [apply (f_equal process_answer) in Hin; done..|].
  apply runs_acquire_lock in Hlock
    as [(e' & He & Ho & Hshape)
       | (held & before & trb & after & ob & Hlocking & Hbody & ->)].
  { destruct Hshape as [-> | [lockfile ->]]; by no_process_in Hin. }
  assert (Hbody' : In ev trb).
  { apply in_app_or in Hin. destruct Hin as [Hin|Hin].
    { inversion Hlocking; subst; by no_process_in Hin. }
    apply in_app_or in Hin. destruct Hin as [Hin|Hin]; [done|].
    inversion Hlocking; subst; simpl in Hin; try done.
    destruct ob; by no_process_in Hin. }
  pose proof (stops_at_critical_section self _ _ Hbody Hbody') as ->.
  pose proof (lock_granted_within _ _ _ (lockless_critical_section self) Hbody) as Hg.
  change (?a :: ?b :: before ++ trb ++ after)
    with ([a; b] ++ before ++ trb ++ after).
  rewrite !lock_granted_app, Hg.
  inversion Hlocking; subst; simpl; done.
Qed.

End Event.

(** X2.  When [find] cannot be started in a run of [prepare], the [OSError]
    of [check_output] is not made an [EnvironmentException]:
    [_find_python_paths] catches [CalledProcessError] only.  [prepare] ends
    with that [OSError], but for the [FileNotFoundError] of a missing [find]
    while the lock is held: it reaches the [except FileNotFoundError] of
    [acquire_lock], whose [yield] makes the generator yield a second time,
    and [prepare] ends with the [RuntimeError] of [contextlib]. *)
Theorem prepare_without_find_raises_RuntimeError {W : Type} (h : handler W)
    (w : W) (self : SharedSourceDirectory) (argv : list string)
    (stderr_devnull : bool) (e : oserror) :
  let r := run h (prepare pid cwd self) w in
  In (Ev (CheckOutput argv stderr_devnull) (ProcOSError e)) (trace_of r) ->
  outcome_of r =
    if lock_granted (trace_of r) && Z.eqb (errno e) ENOENT
    then Raises (RuntimeError "generator didn't stop after throw()")
    else Raises (OSError e).
Proof.
  intros r Hin.
  exact (not_started_runs argv stderr_devnull e self _ _ (run_runs h _ w) Hin).
Qed.

End NotStarted.

Lemma prepare_without_find_raises_RuntimeError_witness :
  outcome_of (run (on without_find) (prepare 7 "/home/u" shared) [])
  = Raises (RuntimeError "generator didn't stop after throw()").
Proof.
  apply (prepare_without_find_raises_RuntimeError 7 "/home/u" (on without_find) []
           shared
           ["find"; "/src/a";
            "("; "-name"; "*.py"; "-or"; "-name"; "*.pyi"; ")";
            "("; "-type"; "f"; "-or"; "-type"; "l"; ")";
            "-print"] true
           (OSErr ENOENT "No such file or directory: 'find'")).
  vm_compute. tauto.
Defined.
